(** * Network configuration backup: a shallow embedding of [backup-server.py]

    The development follows the class [NetworkBackup]: the output sanitizer
    ([clean_config_output]), the HTTP export path ([fortinet_api_backup]),
    the terminal capture ([execute_commands], [wlc_shell_login],
    [get_backup]), persistence ([save_config]), the per-device task
    ([backup_device]) and the batch ([run_backup]).

    Python [str] values are modelled by [string]; a character is a code
    point below 256.  Everything a device, the HTTP endpoint or the file
    system answers is read from an explicit [world]; everything the program
    does to them is recorded in a trace of [event]s. *)

From Stdlib Require Import String Ascii List Bool Arith Lia.
From stdpp Require Import base option gmap strings.
Import ListNotations.

Local Open Scope list_scope.

(** ** Text primitives *)

Module Text.

(** [str.isspace] on one character: TAB..CR, FS..US, SPACE, NEL, NBSP.
    The same class is what [\s] matches in a [str] pattern. *)
Definition isspace (c : ascii) : bool :=
  let n := nat_of_ascii c in
  (Nat.leb 9 n && Nat.leb n 13) || (Nat.leb 28 n && Nat.leb n 32)
  || Nat.eqb n 133 || Nat.eqb n 160.

(** [s.lstrip()] *)
Fixpoint lstrip (s : string) : string :=
  match s with
  | String c r => if isspace c then lstrip r else s
  | EmptyString => EmptyString
  end.

(** [s.rstrip()] *)
Fixpoint rstrip (s : string) : string :=
  match s with
  | String c r =>
      match rstrip r with
      | EmptyString => if isspace c then EmptyString else String c EmptyString
      | r' => String c r'
      end
  | EmptyString => EmptyString
  end.

(** [s.strip()] *)
Definition strip (s : string) : string := rstrip (lstrip s).

(** [s[n:]] for [0 <= n] *)
Fixpoint slice_from (n : nat) (s : string) : string :=
  match n, s with
  | S k, String _ r => slice_from k r
  | _, _ => s
  end.

(** [needle in hay] *)
Fixpoint contains (needle hay : string) : bool :=
  String.prefix needle hay ||
  match hay with
  | String _ r => contains needle r
  | EmptyString => false
  end.

(** [s.replace(a, b)] for one-character [a] and [b] *)
Fixpoint replace_char (a b : ascii) (s : string) : string :=
  match s with
  | String c r => String (if Ascii.eqb c a then b else c) (replace_char a b r)
  | EmptyString => EmptyString
  end.

(** [''.join(parts)] *)
Definition concat_all (parts : list string) : string :=
  fold_right String.append EmptyString parts.

(** Python truthiness of a [str] *)
Definition nonempty (s : string) : bool :=
  match s with EmptyString => false | _ => true end.

End Text.

(** ** The fragment of [re] the program uses *)

Module Re.

(** A pattern built by ['|'.join(re.escape(cmd) ...)] is an ordered
    alternation of literals.  Joining no literal at all gives the empty
    pattern, which is the single empty literal. *)
Definition join_escaped (cmds : list string) : list string :=
  match cmds with
  | [] => [EmptyString]
  | _ => cmds
  end.

(** The match of an alternation anchored at the start of [s]: the first
    alternative, in the order written, that is a prefix of [s].  The
    result is the length of the match. *)
Fixpoint match_here (alts : list string) (s : string) : option nat :=
  match alts with
  | [] => None
  | a :: rest =>
      if String.prefix a s then Some (String.length a) else match_here rest s
  end.

(** [re.search]: the start positions are tried from left to right; the
    result is the span [(start, end)] of the match. *)
Fixpoint search_from (alts : list string) (pos : nat) (s : string)
  : option (nat * nat) :=
  match match_here alts s with
  | Some n => Some (pos, pos + n)
  | None =>
      match s with
      | String _ r => search_from alts (S pos) r
      | EmptyString => None
      end
  end.

Definition search (alts : list string) (s : string) : option (nat * nat) :=
  search_from alts 0 s.

(** [re.search(r'<.*?>\s*$', data)] as a test.  [after_lt] is run on the
    text that follows a [<]: [.] does not cross a line feed, and a [>]
    closes the match when only white space follows up to the end. *)
Fixpoint all_space (s : string) : bool :=
  match s with
  | String c r => Text.isspace c && all_space r
  | EmptyString => true
  end.

Fixpoint after_lt (s : string) : bool :=
  match s with
  | String c r =>
      if Ascii.eqb c ">" then all_space r || after_lt r
      else if Ascii.eqb c "010" then false
      else after_lt r
  | EmptyString => false
  end.

Fixpoint search_prompt (data : string) : bool :=
  match data with
  | String c r => (Ascii.eqb c "<" && after_lt r) || search_prompt r
  | EmptyString => false
  end.

End Re.

(** ** Command profiles and the sanitizer *)

(** A value of the [backup_commands] dictionary: a [str] or a [list] of
    [str]. *)
Inductive command :=
| Single (cmd : string)
| Several (cmds : list string).

(** Python truthiness of such a value *)
Definition command_truthy (c : command) : bool :=
  match c with
  | Single s => Text.nonempty s
  | Several [] => false
  | Several _ => true
  end.

(** The pattern [clean_config_output] builds from its [commands]. *)
Definition pattern_of (commands : command) : list string :=
  match commands with
  | Several cmds => Re.join_escaped cmds
  | Single cmd => [cmd]
  end.

Definition clean_config_output (config : string) (commands : command) : string :=
  match Re.search (pattern_of commands) config with
  | Some (_, e) => Text.lstrip (Text.slice_from e config)
  | None => config
  end.

(** ** Effects

    A call either returns, raises, or never returns (a [while True] loop
    that polls a channel which stays silent).  Next to its result a call
    yields the trace of what it did to the outside.  Log lines other than
    the final summary are left out of the trace. *)

Inductive exn :=
| KeyError
| OSError
| SSHException
| SocketTimeout
| RequestException.

Inductive event :=
| Connect (hostip : string)                   (* client.connect *)
| CloseClient                                 (* client.close *)
| Exec (cmd : string)                         (* client.exec_command *)
| InvokeShell                                 (* client.invoke_shell *)
| Send (text : string)                        (* shell.send *)
| CloseShell                                  (* shell.close *)
| Sleep (ms : nat)                            (* time.sleep *)
| HttpGet (url authorization : string)        (* requests.get *)
| Makedirs (dir : string)                     (* os.makedirs, exist_ok *)
| WriteFile (path content : string)           (* open, write, close *)
| WriteFailed (path : string)                 (* open or write raised *)
| Summary (success total : nat).              (* the closing log line *)

Inductive res (A : Type) :=
| Ret (a : A)
| Raise (e : exn)
| Diverge.
Arguments Ret {A} a.
Arguments Raise {A} e.
Arguments Diverge {A}.

Definition M (A : Type) : Type := (res A * list event)%type.

#[global] Instance M_ret : MRet M := fun A a => (Ret a, []).

#[global] Instance M_bind : MBind M := fun A B k m =>
  match m with
  | (Ret a, t) => let '(r, t') := k a in (r, t ++ t')
  | (Raise e, t) => (Raise e, t)
  | (Diverge, t) => (Diverge, t)
  end.

Definition emit (ev : event) : M unit := (Ret tt, [ev]).
Definition raise {A} (e : exn) : M A := (Raise e, []).
Definition diverge {A} : M A := (Diverge, []).

(** [try: m  except Exception as e: handler e] *)
Definition try_except {A} (m : M A) (handler : exn → M A) : M A :=
  match m with
  | (Raise e, t) => let '(r, t') := handler e in (r, t ++ t')
  | _ => m
  end.

(** ** The outside world *)

Inductive answer (A : Type) :=
| Ok (a : A)
| Fails (e : exn).
Arguments Ok {A} a.
Arguments Fails {A} e.

Definition lift {A} (a : answer A) : M A :=
  match a with
  | Ok x => mret x
  | Fails e => raise e
  end.

(** What [stdout.read] delivers for one command, block after block: the
    text a non-empty block of bytes decodes to, or an error.  After the
    last block the stream is at its end ([read] returns [b'']). *)
Inductive read :=
| Chunk (text : string)
| ReadError (e : exn).

(** What a shell channel answers to the successive [recv_ready] polls:
    nothing yet, or data that [recv] then returns decoded, or data whose
    [recv] raises.  After the last listed poll the channel stays silent. *)
Inductive poll :=
| NoData
| Data (text : string)
| RecvError (e : exn).

Record client := {
  exec_command : string → answer (list read);
  invoke_shell : answer (list poll);
}.

Record response := {
  status_code : nat;
  content : string;
}.

Record world := {
  ssh_connect : string → answer client;               (* by host address *)
  requests_get : string → string → answer response;   (* URL, Authorization *)
  os_makedirs : string → answer unit;
  open_write : string → string → answer unit;         (* path, content *)
  now : string;                                       (* strftime("%Y%m%d_%H%M") *)
}.

(** ** Inventory *)

(** An entry of the inventory. The entry is taken with its keys [name],
    [hostip], [platform] and [groups] present: [backup_device] reads
    them with [device[...]] outside any [try], so an entry that lacks
    one raises [KeyError] there, a case this record leaves out. The
    optional keys are the ones read with [device.get]. *)
Record device := {
  name : string;
  hostip : string;
  platform : string;
  groups : string;
  api_key : option string;
  api_port : option string;    (* as the f-string renders it *)
}.

Record credentials := {
  username : string;
  password : string;
  default_api_key : option string;
}.

Record inventory := {
  creds : credentials;
  devices : list device;
}.

(** ** Paths ([posixpath]) *)

Module Path.

Definition ends_with_slash (p : string) : bool :=
  match String.get (String.length p - 1) p with
  | Some c => Ascii.eqb c "/"
  | None => false
  end.

Definition join2 (path b : string) : string :=
  if String.prefix "/" b then b
  else if negb (Text.nonempty path) || ends_with_slash path then path +:+ b
  else path +:+ "/" +:+ b.

(** [os.path.join(a, *p)] *)
Definition join (a : string) (p : list string) : string :=
  fold_left join2 p a.

Fixpoint has_slash (p : string) : bool :=
  match p with
  | String c r => Ascii.eqb c "/" || has_slash r
  | EmptyString => false
  end.

(** [p[:p.rfind('/') + 1]] *)
Fixpoint head (p : string) : string :=
  match p with
  | String c r =>
      if has_slash r then String c (head r)
      else if Ascii.eqb c "/" then "/" else ""
  | EmptyString => ""
  end.

Fixpoint all_slashes (p : string) : bool :=
  match p with
  | String c r => Ascii.eqb c "/" && all_slashes r
  | EmptyString => true
  end.

Fixpoint rstrip_slash (p : string) : string :=
  match p with
  | String c r =>
      match rstrip_slash r with
      | EmptyString => if Ascii.eqb c "/" then "" else String c ""
      | r' => String c r'
      end
  | EmptyString => ""
  end.

(** [os.path.dirname] *)
Definition dirname (p : string) : string :=
  let h := head p in
  if Text.nonempty h && negb (all_slashes h) then rstrip_slash h else h.

End Path.

(** ** The class [NetworkBackup] *)

(** [self]: the loaded inventory and the command registry. *)
Record network_backup := {
  config : inventory;
  backup_commands : gmap string command;
}.

(** The registry [__init__] installs. *)
Definition default_commands : gmap string command :=
  list_to_map [
    ("juniper_qfx", Single "show configuration | display set | no-more");
    ("juniper_srx", Single "show configuration | display set | no-more");
    ("cisco_ios", Single "show running-config");
    ("cisco_asa", Several ["terminal pager 0"; "show running-config"]);
    ("cisco_wlc", Several ["show running-config"]);
    ("huawei", Single "display current-configuration");
    ("h3c", Several ["screen-length disable"; "display current-configuration"]);
    ("h3c_core", Several ["screen-length disable"; "display current-configuration"]);
    ("fortinet", Single "show");
    ("hillstone", Single "show running-config")
  ].

Definition init (inv : inventory) : network_backup :=
  {| config := inv; backup_commands := default_commands |}.

Definition newline : string := String "010" "".

(** [a or b] on optional strings: [None] and [''] are falsy. *)
Definition or_else (a b : option string) : option string :=
  match a with
  | Some s => if Text.nonempty s then a else b
  | None => b
  end.

Definition truthy (s : option string) : bool :=
  match s with
  | Some s => Text.nonempty s
  | None => false
  end.

(** [open(path, mode)] followed by [f.write(content)] *)
Definition write_file (w : world) (path content : string) : M unit :=
  match open_write w path content with
  | Ok _ => emit (WriteFile path content)
  | Fails e => (Raise e, [WriteFailed path])
  end.

Definition makedirs (w : world) (dir : string) : M unit :=
  emit (Makedirs dir);; lift (os_makedirs w dir).

Definition file_name (d_name d_hostip date_str ext : string) : string :=
  d_name +:+ "_" +:+ Text.replace_char "." "_" d_hostip +:+ "_" +:+ date_str +:+ ext.

Definition fortinet_api_backup (self : network_backup) (w : world) (d : device)
  : M bool :=
  let api_key := or_else (api_key d) (default_api_key (creds (config self))) in
  let api_port := default "443" (api_port d) in
  match api_key with
  | Some key =>
      if Text.nonempty key then
        let url := "https://" +:+ hostip d +:+ ":" +:+ api_port
                   +:+ "/api/v2/monitor/system/config/backup?scope=global" in
        let authorization := "Bearer " +:+ key in
        try_except
          (emit (HttpGet url authorization);;
           resp ← lift (requests_get w url authorization);
           if Nat.eqb (status_code resp) 200 then
             let filename := file_name (name d) (hostip d) (now w) ".conf" in
             let filepath := Path.join "backup" [groups d; filename] in
             makedirs w (Path.dirname filepath);;
             write_file w filepath (content resp);;
             mret true
           else mret false)
          (fun _ => mret false)
      else mret false
  | None => mret false
  end.

(** The result is [None] when the connection fails. *)
Definition connect_device (w : world) (d_hostip : string) : M (option client) :=
  try_except
    (emit (Connect d_hostip);;
     c ← lift (ssh_connect w d_hostip);
     mret (Some c))
    (fun _ => mret None).

(** [chunk = stdout.read(1024); while chunk: output += decode(chunk); ...] *)
Fixpoint read_all (stdout : list read) (output : string) : M string :=
  match stdout with
  | Chunk t :: rest => read_all rest (output +:+ t)
  | ReadError e :: _ => raise e
  | [] => mret output
  end.

(** The [for] loop of [execute_commands], entered with the output
    gathered so far; the iteration's [try] yields [None] when its
    [except] branch is taken, which returns ['']. *)
Fixpoint execute_loop (c : client) (commands : list string) (output : string)
  : M string :=
  match commands with
  | cmd :: rest =>
      step ← try_except
               (emit (Exec (cmd +:+ newline));;
                stdout ← lift (exec_command c (cmd +:+ newline));
                output' ← read_all stdout output;
                match rest with
                | [] => mret tt
                | _ => emit (Sleep 1000)
                end;;
                mret (Some output'))
               (fun _ => mret None);
      match step with
      | Some output' => execute_loop c rest output'
      | None => mret ""
      end
  | [] => mret (Text.strip output)
  end.

Definition execute_commands (c : client) (commands : list string) : M string :=
  execute_loop c commands "".

(** One of the two [while True] loops of [wlc_shell_login]: poll until
    [prompt] shows in the buffer, answer it, and hand the rest of the
    channel on. *)
Fixpoint await_prompt (prompt reply : string) (shell : list poll) (buff : string)
  : M (list poll) :=
  match shell with
  | Data t :: rest =>
      let buff' := buff +:+ t in
      if Text.contains prompt buff' then emit (Send reply);; mret rest
      else emit (Sleep 200);; await_prompt prompt reply rest buff'
  | RecvError e :: _ => raise e
  | NoData :: rest => emit (Sleep 200);; await_prompt prompt reply rest buff
  | [] => diverge
  end.

Definition wlc_shell_login (self : network_backup) (shell : list poll)
  : M (list poll) :=
  let cr := creds (config self) in
  shell ← await_prompt "User:" (username cr +:+ newline) shell "";
  shell ← await_prompt "Password:" (password cr +:+ newline) shell "";
  emit (Sleep 2000);;
  mret shell.

(** The reading loop of the [h3c] branch. *)
Fixpoint h3c_read (shell : list poll) (output : string) : M string :=
  match shell with
  | Data data :: rest =>
      let output' := output +:+ data in
      if Re.search_prompt data then mret output' else h3c_read rest output'
  | RecvError e :: _ => raise e
  | NoData :: rest => emit (Sleep 1000);; h3c_read rest output
  | [] => diverge
  end.

Definition more_flag : string := "Press Enter to continue".
Definition end_flag : string := "(Cisco Controller) >?".
Definition enter_flag : string := "Press Enter to continue".

(** The reading loop of the [cisco_wlc] branch. *)
Fixpoint wlc_read (shell : list poll) (output : string) : M string :=
  match shell with
  | Data data :: rest =>
      let output' := output +:+ data in
      (if Text.contains enter_flag data then emit (Send newline) else mret tt);;
      (if Text.contains more_flag data then emit (Send " ") else mret tt);;
      if Text.contains end_flag data && negb (Text.contains more_flag data)
      then mret output'
      else wlc_read rest output'
  | RecvError e :: _ => raise e
  | NoData :: rest => emit (Sleep 1000);; wlc_read rest output
  | [] => diverge
  end.

(** [while shell.recv_ready(): output += shell.recv(...)] of the
    [cisco_asa] branch. *)
Fixpoint asa_read (shell : list poll) (output : string) : M string :=
  match shell with
  | Data data :: rest => asa_read rest (output +:+ data)
  | RecvError e :: _ => raise e
  | NoData :: _ => mret output
  | [] => mret output
  end.

(** [for cmd in command]: a list gives its items, a [str] its characters. *)
Definition iterate (command : command) : list string :=
  match command with
  | Several cmds => cmds
  | Single cmd => map (fun c => String c "") (list_ascii_of_string cmd)
  end.

Fixpoint asa_send (cmds : list string) : M unit :=
  match cmds with
  | cmd :: rest => emit (Send (cmd +:+ newline));; emit (Sleep 2000);; asa_send rest
  | [] => mret tt
  end.

(** The body of the [try] block of [get_backup] *)
Definition get_backup_body (self : network_backup) (c : client)
    (platform : string) : M (option string) :=
  match backup_commands self !! platform with
  | None => raise KeyError
  | Some command =>
      if bool_decide (platform ∈ ["h3c"; "h3c_core"]) then
        emit InvokeShell;;
        shell ← lift (invoke_shell c);
        emit (Sleep 1000);;
        emit (Send ("screen-length disable" +:+ newline));;
        emit (Sleep 1000);;
        emit (Send ("display current-configuration" +:+ newline));;
        emit (Sleep 2000);;
        output ← h3c_read shell "";
        emit CloseShell;;
        mret (Some output)
      else if bool_decide (platform = "cisco_wlc") then
        emit InvokeShell;;
        shell ← lift (invoke_shell c);
        emit (Sleep 1000);;
        shell ← wlc_shell_login self shell;
        emit (Send ("config paging disable" +:+ newline));;
        emit (Sleep 1000);;
        emit (Send ("show run-config" +:+ newline));;
        emit (Sleep 2000);;
        output ← wlc_read shell "";
        emit CloseShell;;
        mret (Some output)
      else if bool_decide (platform = "cisco_asa") then
        emit InvokeShell;;
        shell ← lift (invoke_shell c);
        emit (Sleep 1000);;
        asa_send (iterate command);;
        emit (Sleep 2000);;
        output ← asa_read shell "";
        emit CloseShell;;
        mret (Some output)
      else
        match command with
        | Several cmds =>
            config ← execute_commands c cmds;
            mret (Some config)
        | Single cmd =>
            emit (Exec cmd);;
            stdout ← lift (exec_command c cmd);
            config ← read_all stdout "";
            mret (Some config)
        end
  end.

(** Both [except] branches return [None]; the result is [None] where
    the source returns [None]. *)
Definition get_backup (self : network_backup) (c : client) (platform : string)
  : M (option string) :=
  try_except (get_backup_body self c platform) (fun _ => mret None).

(** [config] is [None] or a [str]; [commands] is [None] when the caller
    leaves it out. *)
Definition save_config (w : world) (config : option string)
    (d_hostip d_name group : string) (commands : option command) : M bool :=
  match config with
  | Some text =>
      if Text.nonempty text then
        let text :=
          match commands with
          | Some cmds =>
              if command_truthy cmds then clean_config_output text cmds else text
          | None => text
          end in
        let filename := file_name d_name d_hostip (now w) ".cfg" in
        let filepath := Path.join "backup" [group; filename] in
        makedirs w (Path.dirname filepath);;
        try_except
          (write_file w filepath text;; mret true)
          (fun _ => mret false)
      else mret false
  | None => mret false
  end.

(** [self.backup_commands[platform]] *)
Definition commands_for (self : network_backup) (platform : string) : M command :=
  match backup_commands self !! platform with
  | Some command => mret command
  | None => raise KeyError
  end.

Definition backup_device (self : network_backup) (w : world) (d : device) : M bool :=
  if bool_decide (platform d = "fortinet") then fortinet_api_backup self w d
  else
    client ← connect_device w (hostip d);
    match client with
    | None => mret false
    | Some c =>
        config ← get_backup self c (platform d);
        emit CloseClient;;
        if truthy config then
          commands ← commands_for self (platform d);
          save_config w config (hostip d) (name d) (groups d) (Some commands)
        else mret false
    end.

(** [sum(f.result() for f in futures if f.result())]: the futures are
    asked in submission order; a task that raised re-raises here, a task
    that never finishes blocks here. *)
Fixpoint sum_results (results : list (res bool)) : res nat :=
  match results with
  | Ret b :: rest =>
      match sum_results rest with
      | Ret n => Ret (if b then S n else n)
      | other => other
      end
  | Raise e :: _ => Raise e
  | Diverge :: _ => Diverge
  | [] => Ret 0
  end.

Definition finished {A} (r : res A) : bool :=
  match r with
  | Diverge => false
  | _ => true
  end.

(** Leaving the [with ThreadPoolExecutor] block waits for every task. *)
Definition executor_exit {A B} (results : list (res A)) (r : res B) : res B :=
  if forallb finished results then r else Diverge.

(** What the orchestrator gets out of the finished pool: the number of
    successes, or the first error, or nothing when a task never ends. *)
Definition aggregate (results : list (res bool)) : res nat :=
  executor_exit results (sum_results results).

(** The tasks do not read each other's effects; their traces are listed
    in submission order, followed by the summary line when it is logged. *)
Definition run_backup (self : network_backup) (w : world) : M unit :=
  let futures := map (backup_device self w) (devices (config self)) in
  let trace := concat (map snd futures) in
  match aggregate (map fst futures) with
  | Ret success => (Ret tt, trace ++ [Summary success (length futures)])
  | Raise e => (Raise e, trace)
  | Diverge => (Diverge, trace)
  end.

(** * Vocabulary of the statements *)

(** ** The sanitizer *)

(** The command strings of a specification, as the claim reads them. *)
Definition command_strings (commands : command) : list string :=
  match commands with
  | Single cmd => [cmd]
  | Several cmds => cmds
  end.

(** [cmd] occurs in [text] at offset [i]. *)
Definition occurs_at (cmd text : string) (i : nat) : Prop :=
  ∃ pre post, text = pre +:+ cmd +:+ post ∧ String.length pre = i.

Definition occurs (cmd text : string) : Prop := ∃ i, occurs_at cmd text i.

(** [rest] is what follows the leftmost occurrence of a command string in
    [text]; where several of them occur at that offset, the one listed
    first counts. *)
Definition after_leftmost (cmds : list string) (text rest : string) : Prop :=
  ∃ pre cmd skipped later,
    text = pre +:+ cmd +:+ rest ∧
    cmds = skipped ++ cmd :: later ∧
    (∀ c, c ∈ skipped → ¬ occurs_at c text (String.length pre)) ∧
    (∀ c j, c ∈ cmds → j < String.length pre → ¬ occurs_at c text j).

Definition sanitizer_spec (config : string) (commands : command) : Prop :=
  let cmds := command_strings commands in
  ((∃ cmd, cmd ∈ cmds ∧ occurs cmd config) →
     ∃ rest, after_leftmost cmds config rest ∧
             clean_config_output config commands = Text.lstrip rest)
  ∧ ((∀ cmd, cmd ∈ cmds → ¬ occurs cmd config) →
     clean_config_output config commands = config).

(** ** Traces *)

(** The trace [t] followed by the call [m] *)
Definition after {A} (t : list event) (m : M A) : M A := (m.1, t ++ m.2).

(** A keystroke sent when [flag] shows in the chunk *)
Definition send_if (flag data key : string) : list event :=
  if Text.contains flag data then [Send key] else [].

(** The text of the chunks a stretch of polls delivers *)
Fixpoint received (shell : list poll) : string :=
  match shell with
  | Data data :: rest => data +:+ received rest
  | _ :: rest => received rest
  | [] => ""
  end.

Definition is_send (ev : event) : bool :=
  match ev with
  | Send _ => true
  | _ => false
  end.

Definition channel_event (ev : event) : bool :=
  match ev with
  | Exec _ | InvokeShell | Send _ | CloseShell | Sleep _ => true
  | _ => false
  end.

Definition touches_files (ev : event) : bool :=
  match ev with
  | Makedirs _ | WriteFile _ _ | WriteFailed _ => true
  | _ => false
  end.

Definition is_summary (ev : event) : bool :=
  match ev with
  | Summary _ _ => true
  | _ => false
  end.

(** ** Commands run one by one *)

(** The text one command's output stream carries up to its end *)
Fixpoint stream_text (stdout : list read) : answer string :=
  match stdout with
  | Chunk t :: rest =>
      match stream_text rest with
      | Ok r => Ok (t +:+ r)
      | Fails e => Fails e
      end
  | ReadError e :: _ => Fails e
  | [] => Ok ""
  end.

(** The captured text of the command line [sent] *)
Definition captured (c : client) (sent : string) : answer string :=
  match exec_command c sent with
  | Ok stdout => stream_text stdout
  | Fails e => Fails e
  end.

(** The captured texts of a list of commands, each sent with a newline,
    when every one of them is captured without error *)
Fixpoint all_captured (c : client) (cmds : list string) : option (list string) :=
  match cmds with
  | cmd :: rest =>
      match captured c (cmd +:+ newline), all_captured c rest with
      | Ok t, Some ts => Some (t :: ts)
      | _, _ => None
      end
  | [] => Some []
  end.

(** What a successful run of a command list does: one [exec_command] per
    command, a pause between two commands *)
Fixpoint exec_trace (cmds : list string) : list event :=
  match cmds with
  | cmd :: rest =>
      Exec (cmd +:+ newline) ::
      match rest with
      | [] => []
      | _ => Sleep 1000 :: exec_trace rest
      end
  | [] => []
  end.

(** The platforms [get_backup] drives through a shell *)
Definition shell_platforms : list string :=
  ["h3c"; "h3c_core"; "cisco_wlc"; "cisco_asa"].

(** The reading of C4 on a command list: the output is the plain
    concatenation of the captured texts. *)
Definition concatenates (c : client) (cmds : list string) : Prop :=
  ∀ texts, all_captured c cmds = Some texts →
           (execute_commands c cmds).1 = Ret (Text.concat_all texts).

(** ** Tasks and the batch *)

(** The key the HTTP path ends up with *)
Definition effective_key (self : network_backup) (d : device) : option string :=
  or_else (api_key d) (default_api_key (creds (config self))).

Definition api_url (d : device) : string :=
  "https://" +:+ hostip d +:+ ":" +:+ default "443" (api_port d)
  +:+ "/api/v2/monitor/system/config/backup?scope=global".

Definition bearer (key : string) : string := "Bearer " +:+ key.

(** The file of a device's backup, with extension [ext] *)
Definition backup_file (w : world) (d : device) (ext : string) : string :=
  Path.join "backup" [groups d; file_name (name d) (hostip d) (now w) ext].

(** The reading of C7 on a success status: the body is on disk and the
    task succeeded. *)
Definition api_success_claim (self : network_backup) (w : world) (d : device)
  : Prop :=
  ∀ key resp,
    effective_key self d = Some key →
    requests_get w (api_url d) (bearer key) = Ok resp →
    status_code resp = 200 →
    (backup_device self w d).1 = Ret true
    ∧ WriteFile (backup_file w d ".conf") (content resp)
      ∈ (backup_device self w d).2.

(** What [save_config] writes for the capture [text] *)
Definition saved_text (text : string) (commands : command) : string :=
  if command_truthy commands then clean_config_output text commands else text.


(** The capture of a device fails: the body of [get_backup] raises (a
    time-out, a channel or command error, an unknown platform), or one
    command of a command list run by [execute_commands] does. *)
Definition capture_fails (self : network_backup) (c : client)
    (platform : string) : Prop :=
  (∃ e, (get_backup_body self c platform).1 = Raise e)
  ∨ (∃ cmds, backup_commands self !! platform = Some (Several cmds)
             ∧ (platform ∉ shell_platforms)
             ∧ all_captured c cmds = None).

(** The task of a terminal device fails before anything is saved. *)
Inductive task_fails (self : network_backup) (w : world) (d : device) : Prop :=
| connection_failed e :
    ssh_connect w (hostip d) = Fails e → task_fails self w d
| capture_failed c :
    ssh_connect w (hostip d) = Ok c →
    capture_fails self c (platform d) → task_fails self w d.

(** A result that counts in the summary *)
Definition succeeded (r : res bool) : bool :=
  match r with
  | Ret true => true
  | _ => false
  end.

(** The results of the tasks of a batch, in inventory order *)
Definition task_results (self : network_backup) (w : world)
    (ds : list device) : list (res bool) :=
  map (λ d, (backup_device self w d).1) ds.

(** * Scenarios *)

Definition page_and_prompt : string :=
  "(Cisco Controller) >?" +:+ newline +:+ "Press Enter to continue".

(** A client whose channels never deliver anything *)
Definition silent_client : client :=
  {| exec_command := fun _ => Ok []; invoke_shell := Ok [] |}.

(** A device that echoes the command and prints one line of
    configuration *)
Definition ios_client : client :=
  {| exec_command := fun _ =>
       Ok [Chunk ("show running-config" +:+ newline);
           Chunk ("hostname R1" +:+ newline)];
     invoke_shell := Ok [] |}.

(** A device whose output stops with a timeout after the first block *)
Definition stalling_client : client :=
  {| exec_command := fun _ =>
       Ok [Chunk ("hostname R1" +:+ newline); ReadError SocketTimeout];
     invoke_shell := Fails SSHException |}.

Definition lab (ds : list device) : inventory :=
  {| creds := {| username := "admin"; password := "secret";
                 default_api_key := None |};
     devices := ds |}.

Definition r1 : device :=
  {| name := "r1"; hostip := "10.0.0.1"; platform := "cisco_ios";
     groups := "core"; api_key := None; api_port := None |}.

Definition fw : device :=
  {| name := "fw"; hostip := "10.0.0.2"; platform := "fortinet";
     groups := "edge"; api_key := Some "k3y"; api_port := None |}.

Definition unknown_box : device :=
  {| name := "sw9"; hostip := "10.0.0.9"; platform := "arista";
     groups := "core"; api_key := None; api_port := None |}.

(** Every device answers, the endpoint returns 200, the disk takes
    everything. *)
Definition healthy : world :=
  {| ssh_connect := fun _ => Ok ios_client;
     requests_get := fun _ _ =>
       Ok {| status_code := 200; content := "config-bytes" |};
     os_makedirs := fun _ => Ok tt;
     open_write := fun _ _ => Ok tt;
     now := "20240101_0000" |}.

(** As [healthy], but no directory can be created and no file opened. *)
Definition readonly_disk : world :=
  {| ssh_connect := ssh_connect healthy;
     requests_get := requests_get healthy;
     os_makedirs := fun _ => Fails OSError;
     open_write := fun _ _ => Fails OSError;
     now := now healthy |}.

(** As [healthy], but opening a file for writing fails. *)
Definition full_disk : world :=
  {| ssh_connect := ssh_connect healthy;
     requests_get := requests_get healthy;
     os_makedirs := os_makedirs healthy;
     open_write := fun _ _ => Fails OSError;
     now := now healthy |}.

(** As [healthy], but the endpoint refuses the key. *)
Definition forbidden : world :=
  {| ssh_connect := ssh_connect healthy;
     requests_get := fun _ _ =>
       Ok {| status_code := 403; content := "forbidden" |};
     os_makedirs := os_makedirs healthy;
     open_write := open_write healthy;
     now := now healthy |}.

Definition stalling : world :=
  {| ssh_connect := fun _ => Ok stalling_client;
     requests_get := requests_get healthy;
     os_makedirs := os_makedirs healthy;
     open_write := open_write healthy;
     now := now healthy |}.

(** The command echoed, and nothing after it *)
Definition echo_only : string := "show running-config" +:+ newline.

(** A device that echoes the command and prints nothing else *)
Definition echo_client : client :=
  {| exec_command := fun _ => Ok [Chunk echo_only]; invoke_shell := Ok [] |}.

Definition echoing : world :=
  {| ssh_connect := fun _ => Ok echo_client;
     requests_get := requests_get healthy;
     os_makedirs := os_makedirs healthy;
     open_write := open_write healthy;
     now := now healthy |}.

(** A device that prints nothing *)
Definition mute : world :=
  {| ssh_connect := fun _ => Ok silent_client;
     requests_get := requests_get healthy;
     os_makedirs := os_makedirs healthy;
     open_write := open_write healthy;
     now := now healthy |}.

(** * Vocabulary of further properties *)

(** [suffix] is what is left of [text] after dropping some prefix. *)
Definition is_suffix (suffix text : string) : Prop :=
  ∃ pre, text = pre +:+ suffix.

Fixpoint no_line_feed (s : string) : bool :=
  match s with
  | String c r => negb (Ascii.eqb c "010") && no_line_feed r
  | EmptyString => true
  end.

(** What [<.*?>\s*$] asks of a chunk: a [<], then a [>] on the same line,
    then nothing but white space up to the end. *)
Definition ends_with_prompt (data : string) : Prop :=
  ∃ a b c, data = a +:+ "<" +:+ b +:+ ">" +:+ c
           ∧ no_line_feed b = true ∧ Re.all_space c = true.

(** A stretch of polls without error in which no chunk shows the
    prompt *)
Fixpoint no_prompt (shell : list poll) : bool :=
  match shell with
  | NoData :: rest => no_prompt rest
  | Data data :: rest => negb (Re.search_prompt data) && no_prompt rest
  | RecvError _ :: _ => false
  | [] => true
  end.

(** One pause of [ms] per poll without data *)
Fixpoint idle_sleeps (ms : nat) (shell : list poll) : list event :=
  match shell with
  | NoData :: rest => Sleep ms :: idle_sleeps ms rest
  | _ :: rest => idle_sleeps ms rest
  | [] => []
  end.

(** The chunk ends the controller capture. *)
Definition wlc_ends (data : string) : bool :=
  Text.contains end_flag data && negb (Text.contains more_flag data).

(** A stretch of polls without error in which no chunk ends the
    controller capture *)
Fixpoint wlc_going (shell : list poll) : bool :=
  match shell with
  | NoData :: rest => wlc_going rest
  | Data data :: rest => negb (wlc_ends data) && wlc_going rest
  | RecvError _ :: _ => false
  | [] => true
  end.

(** What the controller loop does over such a stretch *)
Fixpoint wlc_trace (shell : list poll) : list event :=
  match shell with
  | NoData :: rest => Sleep 1000 :: wlc_trace rest
  | Data data :: rest =>
      send_if enter_flag data newline ++ send_if more_flag data " "
      ++ wlc_trace rest
  | RecvError _ :: rest => wlc_trace rest
  | [] => []
  end.

(** [k] pagination prompts answered: a line feed and a space each *)
Fixpoint page_answers (k : nat) : list event :=
  match k with
  | S k => Send newline :: Send " " :: page_answers k
  | O => []
  end.

(** The chunk shows the pagination prompt. *)
Definition shows_prompt (p : poll) : bool :=
  match p with
  | Data data => Text.contains more_flag data
  | _ => false
  end.

(** What the controller loop does on one poll that does not stop it *)
Definition wlc_answer (p : poll) : list event :=
  match p with
  | NoData => [Sleep 1000]
  | Data data =>
      if Text.contains more_flag data then [Send newline; Send " "] else []
  | RecvError _ => []
  end.

(** The controller loop stops at this point of the channel: on a chunk
    that ends the capture or on an error; where the channel has fallen
    silent for good it waits without end. *)
Definition wlc_stops (shell : list poll) : bool :=
  match shell with
  | Data data :: _ => wlc_ends data
  | RecvError _ :: _ => true
  | NoData :: _ => false
  | [] => true
  end.

(** A command sent and the pause that follows it when it is not the
    last one *)
Definition exec_then_pause (cmds : list string) : list event :=
  flat_map (λ cmd, [Exec (cmd +:+ newline); Sleep 1000]) cmds.

(** Events of the terminal transport *)
Definition ssh_event (ev : event) : bool :=
  match ev with
  | Connect _ | CloseClient => true
  | _ => channel_event ev
  end.

Definition is_http (ev : event) : bool :=
  match ev with
  | HttpGet _ _ => true
  | _ => false
  end.

(** What [save_config] hands to [f.write] *)
Definition saved_body (text : string) (commands : option command) : string :=
  match commands with
  | Some cmds => saved_text text cmds
  | None => text
  end.

(** What the [cisco_asa] branch sends: each item of the command, and a
    pause after it *)
Definition asa_keystrokes (command : command) : list event :=
  flat_map (λ cmd, [Send (cmd +:+ newline); Sleep 2000]) (iterate command).

(** ** Further scenarios *)

(** A device that answers the first command of the [cisco_asa] list and
    fails on every other one *)
Definition flaky_client : client :=
  {| exec_command := fun cmd =>
       if String.eqb cmd ("terminal pager 0" +:+ newline)
       then Ok [Chunk "pager off"]
       else Fails SSHException;
     invoke_shell := Fails SSHException |}.

(** A firewall for which no key is configured anywhere *)
Definition fw_without_key : device :=
  {| name := "fw2"; hostip := "10.0.0.3"; platform := "fortinet";
     groups := "edge"; api_key := Some ""; api_port := None |}.

(** The error of the first task, in inventory order, that raised *)
Fixpoint first_raise (results : list (res bool)) : option exn :=
  match results with
  | Raise e :: _ => Some e
  | _ :: rest => first_raise rest
  | [] => None
  end.

Definition returned {A} (r : res A) : bool :=
  match r with
  | Ret _ => true
  | _ => false
  end.

(** The traces of the tasks of a batch, in inventory order *)
Definition task_traces (self : network_backup) (w : world)
    (ds : list device) : list event :=
  concat (map (λ d, (backup_device self w d).2) ds).

(** The platforms whose commands [get_backup] spells out itself *)
Definition scripted_platforms : list string := ["h3c"; "h3c_core"; "cisco_wlc"].

(** A registry that lists another command for [h3c] *)
Definition other_registry : network_backup :=
  {| config := lab [];
     backup_commands := <["h3c" := Single "display saved-configuration"]>
                          default_commands |}.

(** A switch whose channel never delivers anything *)
Definition sw_silent : device :=
  {| name := "sw1"; hostip := "10.0.0.5"; platform := "h3c";
     groups := "core"; api_key := None; api_port := None |}.

(** A device whose shell delivers two chunks with a gap between them *)
Definition slow_asa_client : client :=
  {| exec_command := fun _ => Fails SSHException;
     invoke_shell := Ok (map Data ["hostname asa"] ++ NoData :: [Data "interface"]) |}.

(** * Properties *)

(** ** Runs of the model *)

Example clean_single :
  clean_config_output
    ("banner" +:+ newline +:+ "show running-config" +:+ newline +:+ "hostname R1")
    (Single "show running-config") = "hostname R1".
Proof. reflexivity. Qed.

(** Of two commands that match at the same offset the one listed first
    is the match. *)
Example clean_first_listed :
  clean_config_output "show run x" (Several ["show"; "show run"]) = "run x".
Proof. reflexivity. Qed.

Example prompt_patterns :
  Re.search_prompt "<Core>" = true
  ∧ Re.search_prompt ("sysname Core" +:+ newline +:+ "<Core> " +:+ newline) = true
  ∧ Re.search_prompt ("<a" +:+ newline +:+ "b>") = false
  ∧ Re.search_prompt "<Core> display" = false.
Proof. by split_and!. Qed.

Example dirname_backup :
  Path.dirname (Path.join "backup" ["core"; "r1_10_0_0_1_20240101_0000.cfg"])
  = "backup/core".
Proof. reflexivity. Qed.

(** A single-command device that echoes the command: the file holds what
    follows the echo. *)
Example backup_device_single_command :
  backup_device (init (lab [r1])) healthy r1 =
  (Ret true,
   [Connect "10.0.0.1"; Exec "show running-config"; CloseClient;
    Makedirs "backup/core";
    WriteFile "backup/core/r1_10_0_0_1_20240101_0000.cfg"
      ("hostname R1" +:+ newline)]).
Proof. reflexivity. Qed.

(** ** Text and pattern lemmas *)

#[local] Arguments String.append !s1 s2 : simpl nomatch.

Section TextFacts.

Implicit Types s t u pre post : string.

Lemma append_assoc s t u : (s +:+ t) +:+ u = s +:+ (t +:+ u).
Proof. induction s as [|c s IH]; simpl; [done | by rewrite IH]. Qed.

Lemma append_empty_r s : s +:+ "" = s.
Proof. induction s as [|c s IH]; simpl; [done | by rewrite IH]. Qed.

Lemma append_split_length pre post pre' post' :
  pre +:+ post = pre' +:+ post' →
  String.length pre = String.length pre' →
  pre = pre' ∧ post = post'.
Proof.
  revert pre'. induction pre as [|c pre IH]; intros [|c' pre']; simpl;
    intros Heq Hlen; try discriminate; [done |].
  injection Heq as -> Heq. injection Hlen as Hlen.
  destruct (IH _ Heq Hlen) as [-> ->]. done.
Qed.

Lemma prefix_true cmd s :
  String.prefix cmd s = true ↔ ∃ post, s = cmd +:+ post.
Proof.
  revert s. induction cmd as [|c cmd IH]; intros s; simpl.
  - destruct s; split; eauto.
  - destruct s as [|c' s]; simpl.
    + split; [discriminate | intros [post ?]; discriminate].
    + destruct (ascii_dec c c') as [->|Hne].
      * rewrite IH. split; intros [post Hp]; exists post; [by rewrite Hp |].
        by injection Hp.
      * split; [discriminate | intros [post Hp]]. injection Hp as ? ?. done.
Qed.

Lemma slice_from_append pre s n :
  Text.slice_from (String.length pre + n) (pre +:+ s) = Text.slice_from n s.
Proof. induction pre as [|c pre IH]; simpl; [done | apply IH]. Qed.

Lemma slice_from_0 s : Text.slice_from 0 s = s.
Proof. by destruct s. Qed.

Lemma slice_from_length pre s :
  Text.slice_from (String.length pre) (pre +:+ s) = s.
Proof.
  rewrite <- (Nat.add_0_r (String.length pre)), slice_from_append.
  apply slice_from_0.
Qed.

End TextFacts.

(** ** The sanitizer *)

Lemma occurs_at_prefix cmd text i :
  occurs_at cmd text i ↔
  ∃ p r, text = p +:+ r ∧ String.length p = i ∧ String.prefix cmd r = true.
Proof.
  split.
  - intros (pre & post & -> & Hlen). exists pre, (cmd +:+ post).
    split_and!; [done.. |]. apply prefix_true. eauto.
  - intros (p & r & -> & Hlen & Hp). apply prefix_true in Hp as [post ->].
    by exists p, post.
Qed.

Lemma match_here_spec alts s :
  match Re.match_here alts s with
  | Some n =>
      ∃ cmd skipped later,
        alts = skipped ++ cmd :: later ∧ n = String.length cmd ∧
        String.prefix cmd s = true ∧
        ∀ c, c ∈ skipped → String.prefix c s = false
  | None => ∀ c, c ∈ alts → String.prefix c s = false
  end.
Proof.
  induction alts as [|a alts IH]; simpl.
  - intros c Hc. by apply elem_of_nil in Hc.
  - destruct (String.prefix a s) eqn:Ha.
    + exists a, [], alts. split_and!; [done.. |].
      intros c Hc. by apply elem_of_nil in Hc.
    + destruct (Re.match_here alts s) as [n|].
      * destruct IH as (cmd & skipped & later & -> & -> & Hp & Hsk).
        exists cmd, (a :: skipped), later. split_and!; [done.. |].
        intros c [->|Hc]%elem_of_cons; auto.
      * intros c [->|Hc]%elem_of_cons; auto.
Qed.

Lemma search_from_spec alts pos s :
  match Re.search_from alts pos s with
  | Some (st, e) =>
      ∃ pre cmd post skipped later,
        s = pre +:+ cmd +:+ post ∧
        st = pos + String.length pre ∧ e = st + String.length cmd ∧
        alts = skipped ++ cmd :: later ∧
        (∀ c, c ∈ skipped → String.prefix c (cmd +:+ post) = false) ∧
        (∀ c p r, c ∈ alts → s = p +:+ r →
                  String.length p < String.length pre →
                  String.prefix c r = false)
  | None => ∀ c p r, c ∈ alts → s = p +:+ r → String.prefix c r = false
  end.
Proof.
  revert pos. induction s as [|ch s IH]; intros pos; simpl.
  - pose proof (match_here_spec alts "") as Hm.
    destruct (Re.match_here alts "") as [n|].
    + destruct Hm as (cmd & skipped & later & -> & -> & Hp & Hsk).
      apply prefix_true in Hp as [post Hp].
      exists "", cmd, post, skipped, later. simpl.
      split_and!; [done | lia | done | done | by rewrite <- Hp | ].
      intros ? ? ? ? ? ?; lia.
    + intros c p r Hc Heq. destruct p; [|discriminate].
      simpl in Heq. subst r. auto.
  - pose proof (match_here_spec alts (String ch s)) as Hm.
    destruct (Re.match_here alts (String ch s)) as [n|].
    + destruct Hm as (cmd & skipped & later & -> & -> & Hp & Hsk).
      apply prefix_true in Hp as [post Hp].
      exists "", cmd, post, skipped, later. simpl.
      split_and!; [done | lia | done | done | by rewrite <- Hp | ].
      intros ? ? ? ? ? ?; lia.
    + specialize (IH (S pos)).
      destruct (Re.search_from alts (S pos) s) as [[st e]|].
      * destruct IH as (pre & cmd & post & skipped & later
                        & -> & -> & -> & -> & Hsk & Hleft).
        exists (String ch pre), cmd, post, skipped, later. simpl.
        split_and!; [done | lia | done | done | done |].
        intros c [|ch' p] r Hc Heq Hlen; simpl in Heq, Hlen.
        -- subst r. auto.
        -- injection Heq as -> Heq. eapply Hleft; eauto. lia.
      * intros c [|ch' p] r Hc Heq; simpl in Heq.
        -- subst r. auto.
        -- injection Heq as -> Heq. eauto.
Qed.

Lemma pattern_of_strings commands :
  commands ≠ Several [] → pattern_of commands = command_strings commands.
Proof. destruct commands as [cmd|[|c cmds]]; simpl; congruence. Qed.

(** With no command string at all the pattern is empty and matches at
    offset 0: only the leading white space goes. *)
Lemma clean_config_output_no_commands config :
  clean_config_output config (Several []) = Text.lstrip config.
Proof.
  unfold clean_config_output, Re.search. simpl.
  destruct config; simpl; by rewrite ?slice_from_0.
Qed.

(** C1, as the specification states it, fails for the empty list of
    commands: no command string occurs in [" x"], yet the text is not
    returned unchanged. *)
Lemma clean_config_output_empty_list :
  ¬ sanitizer_spec " x" (Several []).
Proof.
  intros [_ Hkeep].
  assert (clean_config_output " x" (Several []) = " x") as Heq.
  { apply Hkeep. intros cmd Hin. by apply elem_of_nil in Hin. }
  vm_compute in Heq. discriminate.
Qed.

(** C1 (amended): for every captured text and every command specification
    other than the empty list, if some command string occurs in the text
    the sanitizer returns what follows the leftmost occurrence of a
    command string (the one listed first, where several occur at that
    offset) with leading white space removed; otherwise it returns the
    text unchanged. *)
Theorem clean_config_output_leftmost config commands :
  commands ≠ Several [] → sanitizer_spec config commands.
Proof.
  intros Hne. unfold sanitizer_spec, clean_config_output, Re.search.
  rewrite (pattern_of_strings _ Hne).
  generalize (command_strings commands). intros cmds.
  pose proof (search_from_spec cmds 0 config) as Hs.
  destruct (Re.search_from cmds 0 config) as [[st e]|].
  - destruct Hs as (pre & cmd & post & skipped & later
                    & -> & -> & -> & -> & Hsk & Hleft).
    simpl. rewrite slice_from_append, slice_from_length.
    split.
    + intros _. exists post. split; [|done].
      exists pre, cmd, skipped, later. split_and!; [done | done | |].
      * intros c Hc (p & r & Heq & Hlen & Hp)%occurs_at_prefix.
        symmetry in Hlen.
        destruct (append_split_length _ _ _ _ Heq Hlen) as [_ <-].
        rewrite (Hsk c Hc) in Hp. discriminate.
      * intros c j Hc Hj (p & r & Heq & Hlen & Hp)%occurs_at_prefix.
        subst j. rewrite (Hleft c p r Hc Heq Hj) in Hp. discriminate.
    + intros Hnone. exfalso. apply (Hnone cmd).
      * apply elem_of_app. right. apply elem_of_cons. by left.
      * exists (String.length pre), pre, post. done.
  - split; [|done].
    intros (cmd & Hin & i & (p & r & Heq & _ & Hp)%occurs_at_prefix).
    rewrite (Hs cmd p r Hin Heq) in Hp. discriminate.
Qed.

Lemma clean_config_output_leftmost_witness :
  Single "show running-config" ≠ Several []
  ∧ sanitizer_spec ("R1#show running-config" +:+ newline +:+ "hostname R1")
      (Single "show running-config").
Proof.
  split; [discriminate |].
  apply (clean_config_output_leftmost
           ("R1#show running-config" +:+ newline +:+ "hostname R1")
           (Single "show running-config")).
  discriminate.
Defined.

(** ** Calls and their traces *)

Section Calls.

Context {A B : Type}.

Lemma bind_emit (ev : event) (m : M B) :
  (emit ev;; m) = (m.1, ev :: m.2).
Proof. by destruct m. Qed.

Lemma bind_ret (a : A) (k : A → M B) : (mret a ≫= k) = k a.
Proof. unfold mret, M_ret, mbind, M_bind. by destruct (k a). Qed.

Lemma bind_lift_ok (a : A) (k : A → M B) : (lift (Ok a) ≫= k) = k a.
Proof. apply bind_ret. Qed.

Lemma bind_lift_fails (e : exn) (k : A → M B) :
  (lift (Fails e) ≫= k) = raise e.
Proof. done. Qed.

Lemma bind_raise (e : exn) (k : A → M B) : (raise e ≫= k) = raise e.
Proof. done. Qed.

Lemma bind_diverge (k : A → M B) : (diverge ≫= k) = diverge.
Proof. done. Qed.

Lemma bind_fst (m : M A) (k : A → M B) :
  (m ≫= k).1 =
  match m.1 with
  | Ret a => (k a).1
  | Raise e => Raise e
  | Diverge => Diverge
  end.
Proof. destruct m as [[a|e|] t]; simpl; [by destruct (k a) | done..]. Qed.

Lemma bind_snd (m : M A) (k : A → M B) :
  (m ≫= k).2 =
  match m.1 with
  | Ret a => m.2 ++ (k a).2
  | _ => m.2
  end.
Proof. destruct m as [[a|e|] t]; simpl; [by destruct (k a) | done..]. Qed.

End Calls.

(** ** The reading loops *)

(** One pass of the [cisco_wlc] loop over a chunk that does not end the
    capture *)
Lemma wlc_read_data data rest output :
  wlc_read (Data data :: rest) output =
  after (send_if enter_flag data newline ++ send_if more_flag data " ")
    (if Text.contains end_flag data && negb (Text.contains more_flag data)
     then mret (output +:+ data)
     else wlc_read rest (output +:+ data)).
Proof.
  simpl. unfold send_if, after.
  destruct (Text.contains enter_flag data), (Text.contains more_flag data),
    (Text.contains end_flag data); simpl;
    by destruct (wlc_read rest (output +:+ data)).
Qed.

(** A loop that is still reading at the end of [shell] goes on with what
    the channel delivers next. *)
Lemma wlc_read_resume shell more output :
  (wlc_read shell output).1 = Diverge →
  wlc_read (shell ++ more) output =
  after (wlc_read shell output).2 (wlc_read more (output +:+ received shell)).
Proof.
  revert output. induction shell as [|[|data|e] shell IH]; intros output Hd.
  - simpl. rewrite append_empty_r. by destruct (wlc_read more output).
  - change (wlc_read (NoData :: shell) output)
      with (emit (Sleep 1000);; wlc_read shell output) in *.
    change (wlc_read ((NoData :: shell) ++ more) output)
      with (emit (Sleep 1000);; wlc_read (shell ++ more) output).
    rewrite !bind_emit in *. simpl in Hd. by rewrite (IH _ Hd).
  - change ((Data data :: shell) ++ more) with (Data data :: (shell ++ more)).
    rewrite !wlc_read_data in *.
    destruct (Text.contains end_flag data && negb (Text.contains more_flag data)).
    + discriminate.
    + simpl in Hd. rewrite (IH _ Hd). unfold after. simpl.
      by rewrite append_assoc, !app_assoc.
  - discriminate.
Qed.

(** C2: in the reading loop of the controller platform, a chunk in which
    the pagination trigger shows never completes the capture, whether or
    not the completion flag shows in it too: a loop that was still
    reading before the chunk sends the continuation keystrokes and is
    still reading after it. *)
Theorem wlc_pagination_precedes_completion shell data output :
  Text.contains more_flag data = true →
  (wlc_read shell output).1 = Diverge →
  wlc_read (shell ++ [Data data]) output =
  (Diverge, (wlc_read shell output).2 ++ [Send newline; Send " "]).
Proof.
  intros Hmore Hreading.
  rewrite (wlc_read_resume _ _ _ Hreading), wlc_read_data.
  unfold send_if. change enter_flag with more_flag.
  rewrite Hmore, andb_false_r. done.
Qed.

Lemma wlc_pagination_precedes_completion_witness :
  Text.contains more_flag page_and_prompt = true
  ∧ (wlc_read [NoData] "").1 = Diverge
  ∧ wlc_read ([NoData] ++ [Data page_and_prompt]) "" =
    (Diverge, (wlc_read [NoData] "").2 ++ [Send newline; Send " "]).
Proof.
  split; [reflexivity |]. split; [reflexivity |].
  apply (wlc_pagination_precedes_completion [NoData] page_and_prompt "");
    reflexivity.
Defined.

(** The completion flag alone does end the capture. *)
Example wlc_completes_without_more :
  wlc_read [NoData; Data "(Cisco Controller) >?"] "cfg" =
  (Ret ("cfg" +:+ "(Cisco Controller) >?"), [Sleep 1000]).
Proof. reflexivity. Qed.

(** ** Silent sessions *)

(** Silent polls change nothing but the clock: the loop sleeps once per
    poll and goes on with what comes next. *)
Lemma h3c_read_wait n rest output :
  h3c_read (repeat NoData n ++ rest) output =
  after (repeat (Sleep 1000) n) (h3c_read rest output).
Proof.
  induction n as [|n IH];
    [unfold after; simpl; by destruct (h3c_read rest output) |].
  change (h3c_read (repeat NoData (S n) ++ rest) output)
    with (emit (Sleep 1000);; h3c_read (repeat NoData n ++ rest) output).
  by rewrite bind_emit, IH.
Qed.

Lemma wlc_read_wait n rest output :
  wlc_read (repeat NoData n ++ rest) output =
  after (repeat (Sleep 1000) n) (wlc_read rest output).
Proof.
  induction n as [|n IH];
    [unfold after; simpl; by destruct (wlc_read rest output) |].
  change (wlc_read (repeat NoData (S n) ++ rest) output)
    with (emit (Sleep 1000);; wlc_read (repeat NoData n ++ rest) output).
  by rewrite bind_emit, IH.
Qed.

Lemma await_prompt_wait prompt reply n rest buff :
  await_prompt prompt reply (repeat NoData n ++ rest) buff =
  after (repeat (Sleep 200) n) (await_prompt prompt reply rest buff).
Proof.
  induction n as [|n IH];
    [unfold after; simpl; by destruct (await_prompt prompt reply rest buff) |].
  change (await_prompt prompt reply (repeat NoData (S n) ++ rest) buff)
    with (emit (Sleep 200);;
          await_prompt prompt reply (repeat NoData n ++ rest) buff).
  by rewrite bind_emit, IH.
Qed.

Lemma h3c_read_silent n output :
  h3c_read (repeat NoData n) output = (Diverge, repeat (Sleep 1000) n).
Proof.
  rewrite <- (app_nil_r (repeat NoData n)), h3c_read_wait.
  unfold after. simpl. by rewrite app_nil_r.
Qed.

Lemma wlc_read_silent n output :
  wlc_read (repeat NoData n) output = (Diverge, repeat (Sleep 1000) n).
Proof.
  rewrite <- (app_nil_r (repeat NoData n)), wlc_read_wait.
  unfold after. simpl. by rewrite app_nil_r.
Qed.

Lemma await_prompt_silent prompt reply n buff :
  await_prompt prompt reply (repeat NoData n) buff =
  (Diverge, repeat (Sleep 200) n).
Proof.
  rewrite <- (app_nil_r (repeat NoData n)), await_prompt_wait.
  unfold after. simpl. by rewrite app_nil_r.
Qed.

(** C3, as the specification states it, fails: on a channel that stays
    silent the capture of an [h3c] device never ends, so it does not
    return the failed result either, and no number of polling cycles is
    enough for the loop to have stopped. *)
Lemma h3c_silent_no_timeout :
  (get_backup (init (lab [])) silent_client "h3c").1 = Diverge
  ∧ ¬ ∃ budget, (h3c_read (repeat NoData budget) "").1 ≠ Diverge.
Proof.
  split; [reflexivity |].
  intros [budget Hstop]. by rewrite h3c_read_silent in Hstop.
Qed.

(** C3 (amended): the reading loops have no wait budget.  In a session
    in which no new data arrives, each loop (the [h3c] capture, the
    controller capture, the wait for a login prompt) is still polling
    after any number of polling cycles, having done nothing but sleep one
    polling interval per cycle; it neither fails nor returns, and it goes
    on as from the start with whatever the channel delivers afterwards. *)
Theorem silent_session_keeps_polling n rest output prompt reply buff :
  h3c_read (repeat NoData n) output = (Diverge, repeat (Sleep 1000) n)
  ∧ wlc_read (repeat NoData n) output = (Diverge, repeat (Sleep 1000) n)
  ∧ await_prompt prompt reply (repeat NoData n) buff
    = (Diverge, repeat (Sleep 200) n)
  ∧ h3c_read (repeat NoData n ++ rest) output
    = after (repeat (Sleep 1000) n) (h3c_read rest output)
  ∧ wlc_read (repeat NoData n ++ rest) output
    = after (repeat (Sleep 1000) n) (wlc_read rest output)
  ∧ await_prompt prompt reply (repeat NoData n ++ rest) buff
    = after (repeat (Sleep 200) n) (await_prompt prompt reply rest buff).
Proof.
  split_and!;
    auto using h3c_read_silent, wlc_read_silent, await_prompt_silent,
      h3c_read_wait, wlc_read_wait, await_prompt_wait.
Qed.

(** ** The default path: commands run one by one *)

Lemma read_all_stream stdout output :
  read_all stdout output =
  match stream_text stdout with
  | Ok t => mret (output +:+ t)
  | Fails e => raise e
  end.
Proof.
  revert output. induction stdout as [|[t|e] stdout IH]; intros output; simpl.
  - by rewrite append_empty_r.
  - rewrite IH. destruct (stream_text stdout); [|done].
    by rewrite append_assoc.
  - done.
Qed.

Lemma execute_loop_cons c cmd rest output :
  execute_loop c (cmd :: rest) output =
  (step ← try_except
            (emit (Exec (cmd +:+ newline));;
             stdout ← lift (exec_command c (cmd +:+ newline));
             output' ← read_all stdout output;
             match rest with
             | [] => mret tt
             | _ => emit (Sleep 1000)
             end;;
             mret (Some output'))
            (fun _ => mret None);
   match step with
   | Some output' => execute_loop c rest output'
   | None => mret ""
   end).
Proof. done. Qed.

#[local] Arguments execute_loop : simpl never.

Lemma execute_loop_captured c cmds output texts :
  all_captured c cmds = Some texts →
  execute_loop c cmds output =
  (Ret (Text.strip (output +:+ Text.concat_all texts)), exec_trace cmds).
Proof.
  revert output texts. induction cmds as [|cmd rest IH]; intros output texts.
  - intros [= <-]. unfold execute_loop. simpl. by rewrite append_empty_r.
  - rewrite execute_loop_cons. simpl. unfold captured.
    destruct (exec_command c (cmd +:+ newline)) as [stdout|e]; [|done].
    rewrite bind_lift_ok, read_all_stream.
    destruct (stream_text stdout) as [t|e]; [|done].
    destruct (all_captured c rest) as [ts|] eqn:Hrest; [|done].
    intros [= <-]. specialize (IH (output +:+ t) ts eq_refl).
    destruct rest as [|cmd' rest]; simpl.
    + injection Hrest as <-. simpl. by rewrite append_empty_r.
    + rewrite IH. simpl. by rewrite append_assoc.
Qed.

Lemma execute_loop_no_send c cmds output :
  Forall (λ ev, is_send ev = false) (execute_loop c cmds output).2.
Proof.
  revert output. induction cmds as [|cmd rest IH]; intros output.
  - constructor.
  - rewrite execute_loop_cons. simpl.
    destruct (exec_command c (cmd +:+ newline)) as [stdout|e].
    + rewrite bind_lift_ok, read_all_stream.
      destruct (stream_text stdout) as [t|e]; simpl.
      * specialize (IH (output +:+ t)).
        destruct (execute_loop c rest (output +:+ t)) as [r tr] eqn:Hl.
        destruct rest as [|cmd' rest]; simpl; rewrite ?Hl;
          simpl in *; by repeat constructor.
      * repeat constructor.
    + repeat constructor.
Qed.

(** Under the registry that [__init__] installs, every platform with a
    command list is driven through a shell; the default path only meets
    single commands. *)
Lemma default_lists_use_shell platform cmds :
  default_commands !! platform = Some (Several cmds) →
  platform ∈ shell_platforms.
Proof.
  unfold default_commands, shell_platforms.
  rewrite !list_to_map_cons, list_to_map_nil. intros H.
  repeat (rewrite lookup_insert in H; case_decide;
          [subst platform; first [discriminate H | set_solver] |]).
  by rewrite lookup_empty in H.
Qed.

(** C4, as the specification states it, fails on a command list: the
    output of [execute_commands] is not the concatenation of the captured
    texts, the closing line feed is gone. *)
Lemma execute_commands_not_concatenation :
  ¬ concatenates ios_client ["show running-config"].
Proof.
  intros Hcat. specialize (Hcat _ eq_refl).
  vm_compute in Hcat. discriminate.
Qed.

(** C4 (amended): on the default path (a platform not driven through a
    shell) a single command yields exactly its captured text; a command
    list whose commands are all captured without error yields the
    concatenation of the captured texts, in command order, stripped of
    leading and trailing white space; and in no case is a keystroke sent
    to the device. *)
Theorem get_backup_default_path self c platform command :
  backup_commands self !! platform = Some command →
  platform ∉ shell_platforms →
  match command with
  | Single cmd =>
      ∀ text, captured c cmd = Ok text →
              get_backup self c platform = (Ret (Some text), [Exec cmd])
  | Several cmds =>
      ∀ texts, all_captured c cmds = Some texts →
               get_backup self c platform =
               (Ret (Some (Text.strip (Text.concat_all texts))), exec_trace cmds)
  end
  ∧ Forall (λ ev, is_send ev = false) (get_backup self c platform).2.
Proof.
  intros Hcmd Hshell. unfold shell_platforms in Hshell.
  rewrite !not_elem_of_cons in Hshell.
  destruct Hshell as (Hh3c & Hcore & Hwlc & Hasa & _).
  unfold get_backup, get_backup_body. rewrite Hcmd.
  rewrite (bool_decide_eq_false_2 (platform ∈ ["h3c"; "h3c_core"]))
    by (rewrite !not_elem_of_cons; split_and!; auto using not_elem_of_nil).
  rewrite !bool_decide_eq_false_2 by done.
  destruct command as [cmd|cmds].
  - unfold captured.
    destruct (exec_command c cmd) as [stdout|e].
    + rewrite bind_lift_ok, read_all_stream.
      destruct (stream_text stdout) as [t|e]; simpl.
      * split; [by intros text [= <-] | repeat constructor].
      * split; [done | repeat constructor].
    + simpl. split; [done | repeat constructor].
  - unfold execute_commands. split.
    + intros texts Hall. rewrite (execute_loop_captured _ _ _ _ Hall).
      simpl. by rewrite app_nil_r.
    + pose proof (execute_loop_no_send c cmds "") as Hns.
      destruct (execute_loop c cmds "") as [[out|e|] tr]; simpl in *;
        by rewrite ?app_nil_r.
Qed.

Lemma get_backup_default_path_witness :
  backup_commands (init (lab [])) !! "cisco_ios"
    = Some (Single "show running-config")
  ∧ ("cisco_ios" ∉ shell_platforms)
  ∧ get_backup (init (lab [])) ios_client "cisco_ios" =
    (Ret (Some ("show running-config" +:+ newline +:+ ("hostname R1" +:+ newline))),
     [Exec "show running-config"]).
Proof.
  assert ("cisco_ios" ∉ shell_platforms) as Hshell.
  { unfold shell_platforms. rewrite !not_elem_of_cons.
    split_and!; try discriminate. apply not_elem_of_nil. }
  split; [reflexivity |]. split; [exact Hshell |].
  apply (get_backup_default_path (init (lab [])) ios_client "cisco_ios"
           (Single "show running-config") eq_refl Hshell).
  reflexivity.
Defined.

(** ** What a call can leave in its trace *)

Section Traces.

Variable P : event → Prop.

Lemma trace_ret {A} (a : A) : Forall P (mret a : M A).2.
Proof. constructor. Qed.

Lemma trace_raise {A} e : Forall P (raise e : M A).2.
Proof. constructor. Qed.

Lemma trace_diverge {A} : Forall P (diverge : M A).2.
Proof. constructor. Qed.

Lemma trace_lift {A} (a : answer A) : Forall P (lift a).2.
Proof. destruct a; constructor. Qed.

Lemma trace_emit ev : P ev → Forall P (emit ev).2.
Proof. by repeat constructor. Qed.

Lemma trace_bind {A B} (m : M A) (k : A → M B) :
  Forall P m.2 → (∀ a, Forall P (k a).2) → Forall P (m ≫= k).2.
Proof.
  intros Hm Hk. rewrite bind_snd. destruct m as [[a|e|] t]; simpl in *; auto.
  apply Forall_app. auto.
Qed.

Lemma trace_try {A} (m : M A) (handler : exn → M A) :
  Forall P m.2 → (∀ e, Forall P (handler e).2) →
  Forall P (try_except m handler).2.
Proof.
  intros Hm Hh. destruct m as [[a|e|] t]; simpl in *; auto.
  specialize (Hh e). destruct (handler e). apply Forall_app. auto.
Qed.

End Traces.

(** Breaks a goal about the trace of a call down along the structure of
    the call; what is left are the events themselves. *)
Ltac trace_step :=
  first
    [ solve [auto]
    | apply trace_ret | apply trace_raise | apply trace_diverge
    | apply trace_lift
    | apply trace_emit
    | apply trace_try; [| intros ?]
    | apply trace_bind; [| intros ?]
    | match goal with
      | |- Forall _ (snd (if ?b then _ else _)) => destruct b
      | |- Forall _ (snd (match ?x with _ => _ end)) => destruct x
      end ].

Ltac trace := repeat trace_step; try done.

Section ChannelTraces.

Local Abbreviation chan := (λ ev, channel_event ev = true).

Lemma read_all_trace stdout output : Forall chan (read_all stdout output).2.
Proof.
  revert output. induction stdout as [|[t|e] stdout IH]; intros output;
    cbn [read_all]; trace.
Qed.

Lemma execute_loop_trace c cmds output :
  Forall chan (execute_loop c cmds output).2.
Proof.
  revert output. induction cmds as [|cmd rest IH]; intros output.
  - constructor.
  - rewrite execute_loop_cons.
    pose proof read_all_trace. trace.
Qed.

Lemma await_prompt_trace prompt reply shell buff :
  Forall chan (await_prompt prompt reply shell buff).2.
Proof.
  revert buff. induction shell as [|[|data|e] shell IH]; intros buff;
    cbn [await_prompt]; trace.
Qed.

Lemma h3c_read_trace shell output : Forall chan (h3c_read shell output).2.
Proof.
  revert output. induction shell as [|[|data|e] shell IH]; intros output;
    cbn [h3c_read]; trace.
Qed.

Lemma wlc_read_trace shell output : Forall chan (wlc_read shell output).2.
Proof.
  revert output. induction shell as [|[|data|e] shell IH]; intros output;
    cbn [wlc_read]; trace.
Qed.

Lemma asa_read_trace shell output : Forall chan (asa_read shell output).2.
Proof.
  revert output. induction shell as [|[|data|e] shell IH]; intros output;
    cbn [asa_read]; trace.
Qed.

Lemma asa_send_trace cmds : Forall chan (asa_send cmds).2.
Proof. induction cmds as [|cmd rest IH]; cbn [asa_send]; trace. Qed.

(** [get_backup] talks to the device and does nothing else. *)
Lemma get_backup_trace self c platform :
  Forall chan (get_backup self c platform).2.
Proof.
  unfold get_backup, get_backup_body, wlc_shell_login, execute_commands.
  pose proof read_all_trace. pose proof execute_loop_trace.
  pose proof await_prompt_trace. pose proof h3c_read_trace.
  pose proof wlc_read_trace. pose proof asa_read_trace.
  pose proof asa_send_trace.
  trace.
Qed.

End ChannelTraces.

(** ** The HTTP path *)

Lemma backup_device_fortinet self w d :
  platform d = "fortinet" →
  backup_device self w d = fortinet_api_backup self w d.
Proof. intros Hp. unfold backup_device. by rewrite bool_decide_eq_true_2. Qed.

(** C7, as the specification states it, fails: the endpoint answers 200
    with the configuration, the file cannot be opened, and the task
    reports failure with nothing written. *)
Lemma api_success_needs_disk :
  ¬ api_success_claim (init (lab [fw])) full_disk fw.
Proof.
  intros Hclaim.
  destruct (Hclaim "k3y" {| status_code := 200; content := "config-bytes" |}
              eq_refl eq_refl eq_refl) as [Hret _].
  vm_compute in Hret. discriminate.
Qed.

(** A status in the 2xx range other than 200 counts as a failure. *)
Example api_no_content_fails :
  let w := {| ssh_connect := ssh_connect healthy;
              requests_get := fun _ _ => Ok {| status_code := 204; content := "" |};
              os_makedirs := os_makedirs healthy;
              open_write := open_write healthy;
              now := now healthy |} in
  backup_device (init (lab [fw])) w fw =
  (Ret false, [HttpGet (api_url fw) (bearer "k3y")]).
Proof. reflexivity. Qed.

(** C7 (amended): for every device of the API platform for which a key
    is configured, the task issues one GET.  If the answer has status 200
    and the directory can be created and the file written, the body is
    written verbatim to the [.conf] file and the task succeeds; if the
    answer has status 200 and the directory or the file cannot be
    written, the task fails and no body is written.  If the answer has
    any other status, or the request raises, the task fails and the file
    system is not touched. *)
Theorem fortinet_api_outcomes self w d key :
  platform d = "fortinet" →
  effective_key self d = Some key →
  Text.nonempty key = true →
  let path := backup_file w d ".conf" in
  let request := HttpGet (api_url d) (bearer key) in
  match requests_get w (api_url d) (bearer key) with
  | Ok resp =>
      if Nat.eqb (status_code resp) 200 then
        match os_makedirs w (Path.dirname path),
              open_write w path (content resp) with
        | Ok _, Ok _ =>
            backup_device self w d =
            (Ret true, [request; Makedirs (Path.dirname path);
                        WriteFile path (content resp)])
        | Ok _, Fails _ =>
            backup_device self w d =
            (Ret false, [request; Makedirs (Path.dirname path);
                         WriteFailed path])
        | Fails _, _ =>
            backup_device self w d =
            (Ret false, [request; Makedirs (Path.dirname path)])
        end
      else backup_device self w d = (Ret false, [request])
  | Fails _ => backup_device self w d = (Ret false, [request])
  end.
Proof.
  intros Hp Hkey Hne. rewrite (backup_device_fortinet _ _ _ Hp).
  unfold fortinet_api_backup, effective_key, backup_file, api_url, bearer in *.
  rewrite Hkey, Hne. simpl.
  destruct (requests_get w _ _) as [resp|e]; [|done]. simpl.
  destruct (Nat.eqb (status_code resp) 200); [|done].
  unfold makedirs, write_file. simpl.
  destruct (os_makedirs w _) as [[]|e]; [|done]. simpl.
  by destruct (open_write w _ _) as [[]|e].
Qed.

Lemma fortinet_api_outcomes_witness :
  platform fw = "fortinet"
  ∧ effective_key (init (lab [fw])) fw = Some "k3y"
  ∧ Text.nonempty "k3y" = true
  ∧ backup_device (init (lab [fw])) healthy fw =
    (Ret true,
     [HttpGet (api_url fw) (bearer "k3y"); Makedirs "backup/edge";
      WriteFile "backup/edge/fw_10_0_0_2_20240101_0000.conf" "config-bytes"])
  ∧ backup_device (init (lab [fw])) forbidden fw =
    (Ret false, [HttpGet (api_url fw) (bearer "k3y")]).
Proof.
  split_and!; [reflexivity.. | |].
  - apply (fortinet_api_outcomes (init (lab [fw])) healthy fw "k3y");
      reflexivity.
  - apply (fortinet_api_outcomes (init (lab [fw])) forbidden fw "k3y");
      reflexivity.
Defined.

(** ** Terminal devices *)

Lemma connect_device_ok w h c :
  ssh_connect w h = Ok c → connect_device w h = (Ret (Some c), [Connect h]).
Proof. intros Hc. unfold connect_device. by rewrite Hc. Qed.

Lemma connect_device_fails w h e :
  ssh_connect w h = Fails e → connect_device w h = (Ret None, [Connect h]).
Proof. intros Hc. unfold connect_device. by rewrite Hc. Qed.

Lemma channel_event_no_files ev :
  channel_event ev = true → touches_files ev = false.
Proof. by destruct ev. Qed.

Lemma channel_event_no_summary ev :
  channel_event ev = true → is_summary ev = false.
Proof. by destruct ev. Qed.

Lemma backup_device_no_connection self w d e :
  platform d ≠ "fortinet" →
  ssh_connect w (hostip d) = Fails e →
  backup_device self w d = (Ret false, [Connect (hostip d)]).
Proof.
  intros Hp Hc. unfold backup_device.
  rewrite bool_decide_eq_false_2 by done.
  by rewrite (connect_device_fails _ _ _ Hc).
Qed.

(** A capture that is [None] or [''] ends the task before
    [save_config]. *)
Lemma backup_device_falsy_capture self w d c cfg :
  platform d ≠ "fortinet" →
  ssh_connect w (hostip d) = Ok c →
  (get_backup self c (platform d)).1 = Ret cfg →
  truthy cfg = false →
  backup_device self w d =
  (Ret false,
   Connect (hostip d) :: (get_backup self c (platform d)).2 ++ [CloseClient]).
Proof.
  intros Hp Hc Hcfg Hfalsy. unfold backup_device.
  rewrite bool_decide_eq_false_2 by done.
  rewrite (connect_device_ok _ _ _ Hc). simpl.
  destruct (get_backup self c (platform d)) as [r t]. simpl in Hcfg. subst r.
  by destruct cfg as [[|ch s]|].
Qed.

Lemma falsy_capture_no_files self w d c cfg :
  platform d ≠ "fortinet" →
  ssh_connect w (hostip d) = Ok c →
  (get_backup self c (platform d)).1 = Ret cfg →
  truthy cfg = false →
  (backup_device self w d).1 = Ret false
  ∧ Forall (λ ev, touches_files ev = false) (backup_device self w d).2.
Proof.
  intros Hp Hc Hcfg Hfalsy.
  rewrite (backup_device_falsy_capture _ _ _ _ _ Hp Hc Hcfg Hfalsy).
  split; [done |]. simpl. constructor; [done |].
  apply Forall_app. split; [| by repeat constructor].
  eapply Forall_impl; [apply get_backup_trace |].
  apply channel_event_no_files.
Qed.

Lemma get_backup_unsupported self c platform :
  backup_commands self !! platform = None →
  get_backup self c platform = (Ret None, []).
Proof.
  intros Hnone. unfold get_backup, get_backup_body. rewrite Hnone. reflexivity.
Qed.

Lemma sum_results_skip_false before after :
  sum_results (before ++ Ret false :: after) = sum_results (before ++ after).
Proof.
  induction before as [|[b|e|] before IH]; simpl; [| | done..].
  - by destruct (sum_results after).
  - by rewrite IH.
Qed.

Lemma aggregate_skip_false before after :
  aggregate (before ++ Ret false :: after) = aggregate (before ++ after).
Proof.
  unfold aggregate, executor_exit.
  by rewrite sum_results_skip_false, !forallb_app.
Qed.

(** C6: a device whose platform has no entry in the registry gets a
    failed result from its task, which neither raises nor touches the
    file system; and the batch aggregates the results of the other
    devices exactly as it would without that device. *)
Theorem unsupported_platform_fails_only_its_task inv w d before after :
  default_commands !! platform d = None →
  (backup_device (init inv) w d).1 = Ret false
  ∧ Forall (λ ev, touches_files ev = false) (backup_device (init inv) w d).2
  ∧ aggregate (task_results (init inv) w (before ++ d :: after))
    = aggregate (task_results (init inv) w (before ++ after)).
Proof.
  intros Hnone.
  assert (platform d ≠ "fortinet") as Hp.
  { intros Heq. rewrite Heq in Hnone. vm_compute in Hnone. discriminate. }
  assert ((backup_device (init inv) w d).1 = Ret false
          ∧ Forall (λ ev, touches_files ev = false)
              (backup_device (init inv) w d).2) as [Hret Hfiles].
  { destruct (ssh_connect w (hostip d)) as [c|e] eqn:Hc.
    - apply (falsy_capture_no_files _ _ _ c None Hp Hc); [|done].
      by rewrite get_backup_unsupported.
    - rewrite (backup_device_no_connection _ _ _ _ Hp Hc).
      split; [done | by repeat constructor]. }
  split_and!; [done.. |].
  unfold task_results. rewrite !map_app. simpl. rewrite Hret.
  apply aggregate_skip_false.
Qed.

Lemma unsupported_platform_fails_only_its_task_witness :
  default_commands !! platform unknown_box = None
  ∧ (backup_device (init (lab [r1; unknown_box])) healthy unknown_box).1
    = Ret false
  ∧ aggregate (task_results (init (lab [r1; unknown_box])) healthy
                 ([r1] ++ unknown_box :: []))
    = Ret 1.
Proof.
  split; [reflexivity |].
  destruct (unsupported_platform_fails_only_its_task
              (lab [r1; unknown_box]) healthy unknown_box [r1] [] eq_refl)
    as (Hret & _ & Hagg).
  split; [exact Hret |]. rewrite Hagg. reflexivity.
Defined.

Lemma execute_loop_failed c cmds output :
  all_captured c cmds = None → (execute_loop c cmds output).1 = Ret "".
Proof.
  revert output. induction cmds as [|cmd rest IH]; intros output; [done |].
  rewrite execute_loop_cons. simpl. unfold captured.
  destruct (exec_command c (cmd +:+ newline)) as [stdout|e]; [|done].
  rewrite bind_lift_ok, read_all_stream.
  destruct (stream_text stdout) as [t|e]; [|done].
  destruct (all_captured c rest) eqn:Hrest; [done |]. intros _.
  specialize (IH (output +:+ t) eq_refl).
  destruct (execute_loop c rest (output +:+ t)) as [r tr] eqn:Hl.
  simpl in IH. subst r.
  destruct rest as [|cmd' rest]; [discriminate Hrest |].
  simpl. by rewrite Hl.
Qed.

Lemma capture_fails_falsy self c platform :
  capture_fails self c platform →
  (get_backup self c platform).1 = Ret None
  ∨ (get_backup self c platform).1 = Ret (Some "").
Proof.
  intros [[e Hraise] | (cmds & Hcmd & Hshell & Hall)].
  - left. unfold get_backup.
    destruct (get_backup_body self c platform) as [r t].
    simpl in Hraise. by subst r.
  - right. unfold shell_platforms in Hshell.
    rewrite !not_elem_of_cons in Hshell.
    destruct Hshell as (Hh3c & Hcore & Hwlc & Hasa & _).
    unfold get_backup, get_backup_body. rewrite Hcmd.
    rewrite (bool_decide_eq_false_2 (platform ∈ ["h3c"; "h3c_core"]))
      by (rewrite !not_elem_of_cons; split_and!; auto using not_elem_of_nil).
    rewrite !bool_decide_eq_false_2 by done.
    unfold execute_commands.
    pose proof (execute_loop_failed c cmds "" Hall) as Hret.
    destruct (execute_loop c cmds "") as [r t]. simpl in Hret. by subst r.
Qed.

(** A file written by the task of a terminal device holds a capture that
    [get_backup] ran to its end without error. *)
Lemma written_only_after_capture self w d path content :
  platform d ≠ "fortinet" →
  WriteFile path content ∈ (backup_device self w d).2 →
  ∃ c text commands,
    ssh_connect w (hostip d) = Ok c
    ∧ (get_backup_body self c (platform d)).1 = Ret (Some text)
    ∧ Text.nonempty text = true
    ∧ backup_commands self !! platform d = Some commands
    ∧ path = backup_file w d ".cfg"
    ∧ content = saved_text text commands.
Proof.
  intros Hp. unfold backup_device. rewrite bool_decide_eq_false_2 by done.
  destruct (ssh_connect w (hostip d)) as [c|e] eqn:Hc.
  2: { rewrite (connect_device_fails _ _ _ Hc). simpl.
       intros [=]%list_elem_of_singleton. }
  rewrite (connect_device_ok _ _ _ Hc). simpl.
  pose proof (get_backup_trace self c (platform d)) as Htrace.
  rewrite Forall_forall in Htrace.
  assert (∀ text, (get_backup self c (platform d)).1 = Ret (Some text) →
                  (get_backup_body self c (platform d)).1 = Ret (Some text))
    as Hbody.
  { unfold get_backup.
    by destruct (get_backup_body self c (platform d)) as [[x|e|] t']. }
  destruct (get_backup self c (platform d)) as [[cfg|e|] t]; simpl in *.
  2,3: by intros [[=] | ?%Htrace]%elem_of_cons.
  assert (∀ tail, WriteFile path content ∈ Connect (hostip d) :: t ++ tail →
                  WriteFile path content ∈ tail) as Htail.
  { intros tail [[=] | [?%Htrace | ?]%elem_of_app]%elem_of_cons; done. }
  destruct cfg as [text|]; simpl.
  2: { by intros [=]%Htail%list_elem_of_singleton. }
  destruct (Text.nonempty text) eqn:Htext; simpl.
  2: { by intros [=]%Htail%list_elem_of_singleton. }
  unfold commands_for.
  destruct (backup_commands self !! platform d) as [commands|] eqn:Hcmd; simpl.
  2: { by intros [=]%Htail%list_elem_of_singleton. }
  unfold makedirs, write_file.
  destruct (os_makedirs w _) as [[]|e]; simpl.
  2: { intros Hin%Htail. rewrite !elem_of_cons in Hin.
       destruct Hin as [[=] | [[=] | Hin]]. by apply elem_of_nil in Hin. }
  destruct (open_write w _ _) as [[]|e]; simpl.
  2: { intros Hin%Htail. rewrite !elem_of_cons in Hin.
       destruct Hin as [[=] | [[=] | [[=] | Hin]]]. by apply elem_of_nil in Hin. }
  intros Hin%Htail. rewrite !elem_of_cons in Hin.
  destruct Hin as [[=] | [[=] | [Heq | Hin]]]; [| by apply elem_of_nil in Hin].
  injection Heq as -> ->.
  exists c, text, commands. split_and!; [done | by apply Hbody | done..].
Qed.

(** C8: when the task of a terminal device fails (the connection
    fails, or the capture raises a time-out or any other error, or a
    command of a command list does), what was captured up to the error is
    not returned by [get_backup], which gives [None] or [''], the task
    returns a failed result, and the file system is not touched.  A file
    that a task does write holds a capture that [get_backup] ran to its
    end without error. *)
Theorem failed_capture_is_discarded self w d :
  platform d ≠ "fortinet" →
  (task_fails self w d →
   (backup_device self w d).1 = Ret false
   ∧ Forall (λ ev, touches_files ev = false) (backup_device self w d).2
   ∧ ∀ c, ssh_connect w (hostip d) = Ok c →
          (get_backup self c (platform d)).1 = Ret None
          ∨ (get_backup self c (platform d)).1 = Ret (Some ""))
  ∧ (∀ path content,
       WriteFile path content ∈ (backup_device self w d).2 →
       ∃ c text commands,
         ssh_connect w (hostip d) = Ok c
         ∧ (get_backup_body self c (platform d)).1 = Ret (Some text)
         ∧ Text.nonempty text = true
         ∧ backup_commands self !! platform d = Some commands
         ∧ path = backup_file w d ".cfg"
         ∧ content = saved_text text commands).
Proof.
  intros Hp. split; [| intros path content; by apply written_only_after_capture].
  intros [e Hc | c Hc Hfail].
  - rewrite (backup_device_no_connection _ _ _ _ Hp Hc).
    split_and!; [done | by repeat constructor | congruence].
  - pose proof (capture_fails_falsy _ _ _ Hfail) as Hcfg.
    assert (∃ cfg, (get_backup self c (platform d)).1 = Ret cfg
                   ∧ truthy cfg = false) as (cfg & Hret & Hfalsy).
    { destruct Hcfg as [-> | ->]; eauto. }
    destruct (falsy_capture_no_files _ _ _ _ _ Hp Hc Hret Hfalsy).
    split_and!; [done.. |].
    intros c' Hc'. rewrite Hc in Hc'. by injection Hc' as <-.
Qed.

Lemma failed_capture_is_discarded_witness :
  platform r1 ≠ "fortinet"
  ∧ task_fails (init (lab [r1])) stalling r1
  ∧ (backup_device (init (lab [r1])) stalling r1).1 = Ret false
  ∧ Forall (λ ev, touches_files ev = false)
      (backup_device (init (lab [r1])) stalling r1).2.
Proof.
  assert (platform r1 ≠ "fortinet") as Hp by discriminate.
  assert (task_fails (init (lab [r1])) stalling r1) as Hfail.
  { apply (capture_failed _ _ _ stalling_client); [reflexivity |].
    left. exists SocketTimeout. reflexivity. }
  destruct (failed_capture_is_discarded (init (lab [r1])) stalling r1 Hp)
    as [Hfailed _].
  destruct (Hfailed Hfail) as (Hret & Hfiles & _).
  split_and!; assumption.
Defined.




(** A capture that only becomes empty through sanitization is written:
    the test for emptiness comes before [clean_config_output]. *)
Example echo_only_capture_is_saved :
  save_config healthy (Some "show running-config") "10.0.0.1" "r1" "core"
    (Some (Single "show running-config")) =
  (Ret true,
   [Makedirs "backup/core";
    WriteFile "backup/core/r1_10_0_0_1_20240101_0000.cfg" ""]).
Proof. reflexivity. Qed.

(** The batch counts such a device as backed up: its file is empty and
    the summary reports one success out of one. *)
Example echo_only_device_counts_as_success :
  run_backup (init (lab [r1])) echoing =
  (Ret tt,
   [Connect "10.0.0.1"; Exec "show running-config"; CloseClient;
    Makedirs "backup/core";
    WriteFile "backup/core/r1_10_0_0_1_20240101_0000.cfg" "";
    Summary 1 1]).
Proof. reflexivity. Qed.

(** ** The batch *)

(** C5: the specification is right that no error of a device task may
    abort the batch, and the code misses one: [save_config] creates the
    directory outside its [try], so an error of [os.makedirs] leaves the
    task, is raised again by [f.result()] and ends [run_backup] before
    the summary.  Here one device is captured without error and
    [backup/core] cannot be created. *)
Theorem run_backup_makedirs_error_escapes :
  run_backup (init (lab [r1])) readonly_disk =
  (Raise OSError,
   [Connect "10.0.0.1"; Exec "show running-config"; CloseClient;
    Makedirs "backup/core"]).
Proof. reflexivity. Qed.

(** The HTTP path creates the directory inside its [try]: the same disk
    gives a failed task there, and the summary is logged. *)
Example run_backup_api_makedirs_caught :
  run_backup (init (lab [fw])) readonly_disk =
  (Ret tt,
   [HttpGet (api_url fw) (bearer "k3y"); Makedirs "backup/edge"; Summary 0 1]).
Proof. reflexivity. Qed.

(** A handler that returns leaves no error to its caller. *)
Lemma try_except_total {A} (m : M A) (a : A) e :
  (try_except m (λ _, mret a)).1 ≠ Raise e.
Proof. by destruct m as [[x|e'|] t]. Qed.

(** ** The summary *)

Lemma write_file_trace (P : event → Prop) w path content :
  P (WriteFile path content) → P (WriteFailed path) →
  Forall P (write_file w path content).2.
Proof.
  intros Hok Hfail. unfold write_file.
  destruct (open_write w path content); by repeat constructor.
Qed.

(** Only [run_backup] logs the summary. *)
Lemma backup_device_no_summary self w d :
  Forall (λ ev, is_summary ev = false) (backup_device self w d).2.
Proof.
  assert (∀ c p, Forall (λ ev, is_summary ev = false) (get_backup self c p).2)
    as Hget.
  { intros c p. eapply Forall_impl; [apply get_backup_trace |].
    apply channel_event_no_summary. }
  assert (∀ path content,
            Forall (λ ev, is_summary ev = false) (write_file w path content).2)
    as Hwrite by (intros; by apply write_file_trace).
  unfold backup_device, fortinet_api_backup, connect_device, save_config,
    commands_for, makedirs.
  trace.
Qed.

Lemma tasks_no_summary self w ds :
  Forall (λ ev, is_summary ev = false)
    (concat (map snd (map (backup_device self w) ds))).
Proof.
  induction ds as [|d ds IH]; simpl; [constructor |].
  apply Forall_app. split; [apply backup_device_no_summary | done].
Qed.

Lemma sum_results_count results n :
  sum_results results = Ret n →
  n = length (List.filter succeeded results) ∧ n ≤ length results.
Proof.
  revert n. induction results as [|[b|e|] results IH]; intros n; simpl;
    [intros [= <-]; by split | | done..].
  destruct (sum_results results) as [m| |]; [|done..].
  destruct (IH m eq_refl) as [Hm Hle].
  intros [= <-]. destruct b; simpl; split; lia.
Qed.

Lemma aggregate_ret results n :
  aggregate results = Ret n → sum_results results = Ret n.
Proof.
  unfold aggregate, executor_exit.
  by destruct (forallb finished results).
Qed.

(** C9: the success count of the summary that [run_backup] logs is the
    number of tasks whose result is [True], the total is the number of
    devices, and the count does not exceed the total. *)
Theorem summary_counts_successes self w success total :
  Summary success total ∈ (run_backup self w).2 →
  success
  = length (List.filter succeeded (task_results self w (devices (config self))))
  ∧ total = length (devices (config self))
  ∧ success ≤ total.
Proof.
  unfold run_backup, task_results.
  pose proof (tasks_no_summary self w (devices (config self))) as Hno.
  rewrite Forall_forall in Hno.
  rewrite map_map.
  destruct (aggregate _) as [n|e|] eqn:Hagg; simpl;
    [| by intros ?%Hno.. ].
  intros [Hin | Heq%list_elem_of_singleton]%elem_of_app;
    [by apply Hno in Hin |].
  injection Heq as -> ->.
  apply aggregate_ret, sum_results_count in Hagg as [-> Hle].
  rewrite !length_map in *. done.
Qed.

Lemma summary_counts_successes_witness :
  Summary 2 3 ∈ (run_backup (init (lab [r1; fw; unknown_box])) healthy).2
  ∧ 2 = length (List.filter succeeded
                  (task_results (init (lab [r1; fw; unknown_box])) healthy
                     [r1; fw; unknown_box]))
  ∧ 3 = length [r1; fw; unknown_box].
Proof.
  assert (Summary 2 3
          ∈ (run_backup (init (lab [r1; fw; unknown_box])) healthy).2) as Hin.
  { apply list_elem_of_lookup. exists 10. reflexivity. }
  destruct (summary_counts_successes
              (init (lab [r1; fw; unknown_box])) healthy 2 3 Hin)
    as (Hs & Ht & _).
  split_and!; [exact Hin | exact Hs | exact Ht].
Defined.

(** * Further properties *)

(** ** The sanitizer never invents text *)

Lemma is_suffix_refl s : is_suffix s s.
Proof. by exists "". Qed.

Lemma is_suffix_trans s t u : is_suffix s t → is_suffix t u → is_suffix s u.
Proof.
  intros [p ->] [q ->]. exists (q +:+ p). by rewrite append_assoc.
Qed.

Lemma slice_from_suffix n s : is_suffix (Text.slice_from n s) s.
Proof.
  revert n. induction s as [|c s IH]; intros [|n]; simpl;
    try apply is_suffix_refl.
  destruct (IH n) as [p Hp]. exists (String c p). simpl. by rewrite <- Hp.
Qed.

Lemma lstrip_suffix s : is_suffix (Text.lstrip s) s.
Proof.
  induction s as [|c s IH]; simpl; [apply is_suffix_refl |].
  destruct (Text.isspace c); [| apply is_suffix_refl].
  destruct IH as [p Hp]. exists (String c p). simpl. by rewrite <- Hp.
Qed.

Lemma lstrip_idempotent s : Text.lstrip (Text.lstrip s) = Text.lstrip s.
Proof.
  induction s as [|c s IH]; simpl; [done |].
  destruct (Text.isspace c) eqn:Hc; [done |]. simpl. by rewrite Hc.
Qed.

(** X1: whatever the commands, the sanitizer returns a suffix of the
    captured text, and that suffix is either the whole text or starts
    with a character that is not white space. *)
Theorem clean_config_output_suffix config commands :
  is_suffix (clean_config_output config commands) config
  ∧ (clean_config_output config commands = config
     ∨ Text.lstrip (clean_config_output config commands)
       = clean_config_output config commands).
Proof.
  unfold clean_config_output.
  destruct (Re.search (pattern_of commands) config) as [[st e]|].
  - split; [| right; apply lstrip_idempotent].
    eapply is_suffix_trans; [apply lstrip_suffix | apply slice_from_suffix].
  - split; [apply is_suffix_refl | by left].
Qed.

(** ** The prompt pattern of the [h3c] branch *)

Lemma after_lt_spec s :
  Re.after_lt s = true ↔
  ∃ b c, s = b +:+ ">" +:+ c ∧ no_line_feed b = true ∧ Re.all_space c = true.
Proof.
  split.
  - induction s as [|ch s IH]; simpl; [done |].
    destruct (Ascii.eqb ch ">") eqn:Hgt.
    + apply Ascii.eqb_eq in Hgt as ->.
      intros [Hsp | Hlt]%orb_true_iff.
      * by exists "", s.
      * destruct (IH Hlt) as (b & c & -> & Hb & Hc).
        exists (String ">" b), c. simpl. by rewrite Hb.
    + destruct (Ascii.eqb ch "010") eqn:Hlf; [done |].
      intros Hlt. destruct (IH Hlt) as (b & c & -> & Hb & Hc).
      exists (String ch b), c. simpl. by rewrite Hlf.
  - intros (b & c & -> & Hb & Hc). induction b as [|ch b IH]; simpl in *.
    + by rewrite Hc.
    + apply andb_true_iff in Hb as [Hch Hb].
      apply negb_true_iff in Hch. rewrite Hch, (IH Hb).
      destruct (Ascii.eqb ch ">"); [apply orb_true_r | done].
Qed.

(** X2: the test the [h3c] loop runs on a chunk succeeds exactly when
    the chunk holds a [<] followed on the same line by a [>] after which
    only white space is left. *)
Theorem search_prompt_spec data :
  Re.search_prompt data = true ↔ ends_with_prompt data.
Proof.
  unfold ends_with_prompt. split.
  - induction data as [|ch data IH]; simpl; [done |].
    intros [[Hch Hlt]%andb_true_iff | Hs]%orb_true_iff.
    + apply Ascii.eqb_eq in Hch as ->.
      apply after_lt_spec in Hlt as (b & c & -> & Hb & Hc).
      by exists "", b, c.
    + destruct (IH Hs) as (a & b & c & -> & Hb & Hc).
      by exists (String ch a), b, c.
  - intros (a & b & c & -> & Hb & Hc). induction a as [|ch a IH].
    + change (Re.search_prompt ("" +:+ "<" +:+ b +:+ ">" +:+ c))
        with (Re.after_lt (b +:+ ">" +:+ c)
              || Re.search_prompt (b +:+ ">" +:+ c)).
      apply orb_true_iff. left. apply after_lt_spec. eauto.
    + change (Re.search_prompt (String ch a +:+ "<" +:+ b +:+ ">" +:+ c))
        with ((Ascii.eqb ch "<" && Re.after_lt (a +:+ "<" +:+ b +:+ ">" +:+ c))
              || Re.search_prompt (a +:+ "<" +:+ b +:+ ">" +:+ c)).
      rewrite IH. apply orb_true_r.
Qed.

(** ** The [h3c] loop *)

(** X3: the prompt is looked for in each chunk on its own.  When no
    single chunk shows it, the loop never returns, whatever the chunks
    add up to; all it does is sleep once per poll without data. *)
Theorem h3c_prompt_must_fit_one_chunk shell output :
  no_prompt shell = true →
  h3c_read shell output = (Diverge, idle_sleeps 1000 shell).
Proof.
  revert output. induction shell as [|[|data|e] shell IH]; intros output;
    cbn [no_prompt idle_sleeps h3c_read]; [done | | | done].
  - intros Hn. by rewrite bind_emit, (IH _ Hn).
  - intros [Hd Hn]%andb_true_iff. apply negb_true_iff in Hd.
    by rewrite Hd, (IH _ Hn).
Qed.

Lemma h3c_prompt_must_fit_one_chunk_witness :
  no_prompt [Data "<Co"; NoData; Data "re>"] = true
  ∧ Re.search_prompt (received [Data "<Co"; NoData; Data "re>"]) = true
  ∧ h3c_read [Data "<Co"; NoData; Data "re>"] "" = (Diverge, [Sleep 1000]).
Proof.
  split; [reflexivity |]. split; [reflexivity |].
  apply (h3c_prompt_must_fit_one_chunk [Data "<Co"; NoData; Data "re>"] "").
  reflexivity.
Defined.

(** X4: when the [h3c] loop returns, it does so on the first chunk that
    shows the prompt; what it returns is everything received up to and
    including that chunk, nothing that came after, and it has slept once
    per poll without data before that chunk. *)
Theorem h3c_read_returns shell output out :
  (h3c_read shell output).1 = Ret out →
  ∃ pre data post,
    shell = pre ++ Data data :: post
    ∧ no_prompt pre = true
    ∧ Re.search_prompt data = true
    ∧ out = output +:+ received pre +:+ data
    ∧ (h3c_read shell output).2 = idle_sleeps 1000 pre.
Proof.
  revert output. induction shell as [|[|data|e] shell IH]; intros output;
    cbn [h3c_read]; [done | | | done].
  - rewrite bind_emit. simpl. intros Hret.
    destruct (IH _ Hret) as (pre & d & post & -> & Hn & Hd & -> & Ht).
    exists (NoData :: pre), d, post. simpl. by rewrite Ht.
  - destruct (Re.search_prompt data) eqn:Hd.
    + intros [= <-]. by exists [], data, shell.
    + intros Hret.
      destruct (IH _ Hret) as (pre & d & post & -> & Hn & Hd' & -> & Ht).
      exists (Data data :: pre), d, post. simpl.
      rewrite Hd, Hn, Ht. by rewrite !append_assoc.
Qed.

Lemma h3c_read_returns_witness :
  (h3c_read [NoData; Data "sysname Core"; Data "<Core>"; Data "late"] "").1
  = Ret "sysname Core<Core>"
  ∧ ∃ pre data post,
      [NoData; Data "sysname Core"; Data "<Core>"; Data "late"]
      = pre ++ Data data :: post
      ∧ no_prompt pre = true
      ∧ Re.search_prompt data = true
      ∧ "sysname Core<Core>" = "" +:+ received pre +:+ data
      ∧ (h3c_read [NoData; Data "sysname Core"; Data "<Core>"; Data "late"]
           "").2 = idle_sleeps 1000 pre.
Proof.
  split; [reflexivity |].
  apply (h3c_read_returns
           [NoData; Data "sysname Core"; Data "<Core>"; Data "late"] "").
  reflexivity.
Defined.

(** ** The [cisco_asa] loop *)

(** The loop ends at the first poll without data. *)
Lemma asa_read_chunks chunks rest output :
  asa_read (map Data chunks ++ NoData :: rest) output =
  (Ret (output +:+ Text.concat_all chunks), []).
Proof.
  revert output. induction chunks as [|chunk chunks IH]; intros output; simpl.
  - by rewrite append_empty_r.
  - rewrite IH. by rewrite append_assoc.
Qed.

(** ** The controller loop *)

(** X5: when the controller loop returns, it does so on the first chunk
    that shows the end flag without the pagination prompt; it returns
    everything received up to and including that chunk, and nothing is
    sent on that last chunk. *)
Theorem wlc_read_returns shell output out :
  (wlc_read shell output).1 = Ret out →
  ∃ pre data post,
    shell = pre ++ Data data :: post
    ∧ wlc_going pre = true
    ∧ Text.contains end_flag data = true
    ∧ Text.contains more_flag data = false
    ∧ out = output +:+ received pre +:+ data
    ∧ (wlc_read shell output).2 = wlc_trace pre.
Proof.
  revert output. induction shell as [|[|data|e] shell IH]; intros output.
  - done.
  - change (wlc_read (NoData :: shell) output)
      with (emit (Sleep 1000);; wlc_read shell output).
    rewrite bind_emit. simpl. intros Hret.
    destruct (IH _ Hret) as (pre & d & post & -> & Hg & He & Hm & -> & Ht).
    exists (NoData :: pre), d, post. simpl. by rewrite Ht.
  - rewrite wlc_read_data. fold (wlc_ends data).
    destruct (wlc_ends data) eqn:Hends.
    + intros [= <-]. unfold wlc_ends in Hends.
      apply andb_true_iff in Hends as [He Hm]. apply negb_true_iff in Hm.
      exists [], data, shell. unfold send_if.
      change enter_flag with more_flag. rewrite Hm.
      split_and!; done.
    + simpl. intros Hret.
      destruct (IH _ Hret) as (pre & d & post & -> & Hg & He & Hm & -> & Ht).
      exists (Data data :: pre), d, post. simpl.
      rewrite Hends, Hg, Ht. split_and!; try done.
      * by rewrite !append_assoc.
      * by rewrite <- app_assoc.
  - done.
Qed.

Lemma wlc_read_returns_witness :
  (wlc_read [Data page_and_prompt; NoData; Data "(Cisco Controller) >?"] "").1
  = Ret (page_and_prompt +:+ "(Cisco Controller) >?")
  ∧ ∃ pre data post,
      [Data page_and_prompt; NoData; Data "(Cisco Controller) >?"]
      = pre ++ Data data :: post
      ∧ wlc_going pre = true
      ∧ Text.contains end_flag data = true
      ∧ Text.contains more_flag data = false
      ∧ page_and_prompt +:+ "(Cisco Controller) >?"
        = "" +:+ received pre +:+ data
      ∧ (wlc_read [Data page_and_prompt; NoData; Data "(Cisco Controller) >?"]
           "").2 = wlc_trace pre.
Proof.
  split; [reflexivity |].
  apply (wlc_read_returns
           [Data page_and_prompt; NoData; Data "(Cisco Controller) >?"] ""
           (page_and_prompt +:+ "(Cisco Controller) >?")).
  reflexivity.
Defined.

(** X6: the pagination prompt and the "press enter" prompt are the same
    text, and the controller loop answers chunk by chunk.  Over the polls
    it reads before it stops (on the first chunk that ends the capture,
    on an error of the channel, or never), its trace is, in order, a
    pause for each poll without data, a line feed followed by a space
    for each chunk that shows the prompt, and nothing for any other
    chunk; so the keystrokes it sends are one such pair for each chunk
    read that shows the prompt, and nothing else. *)
Theorem wlc_read_answers_in_pairs shell output :
  ∃ pre rest,
    shell = pre ++ rest
    ∧ wlc_going pre = true
    ∧ wlc_stops rest = true
    ∧ (wlc_read shell output).2 = flat_map wlc_answer pre
    ∧ List.filter is_send (wlc_read shell output).2
      = page_answers (length (List.filter shows_prompt pre)).
Proof.
  revert output. induction shell as [|[|data|e] shell IH]; intros output.
  - by exists [], [].
  - change (wlc_read (NoData :: shell) output)
      with (emit (Sleep 1000);; wlc_read shell output).
    rewrite bind_emit.
    destruct (IH output) as (pre & rest & -> & Hgo & Hstop & Ht & Hs).
    exists (NoData :: pre), rest. simpl. rewrite Ht, <- Hs, Ht.
    split_and!; done.
  - rewrite wlc_read_data. fold (wlc_ends data).
    destruct (wlc_ends data) eqn:Hends.
    + exists [], (Data data :: shell). unfold wlc_ends in Hends.
      apply andb_true_iff in Hends as [He Hm]. apply negb_true_iff in Hm.
      unfold send_if. change enter_flag with more_flag. rewrite Hm.
      simpl. unfold wlc_ends. rewrite He, Hm. split_and!; done.
    + destruct (IH (output +:+ data))
        as (pre & rest & -> & Hgo & Hstop & Ht & Hs).
      exists (Data data :: pre), rest. unfold send_if, after.
      change enter_flag with more_flag. simpl.
      rewrite Hends, Hgo, Ht.
      rewrite Ht in Hs.
      destruct (Text.contains more_flag data); simpl; rewrite Hs;
        split_and!; done.
  - by exists [], (RecvError e :: shell).
Qed.

(** Two pages and the end of the capture: two pairs, none for the chunk
    without the prompt and none for the last one. *)
Example wlc_read_two_pages :
  wlc_read
    [Data page_and_prompt; NoData; Data "ssid lab";
     Data "Press Enter to continue"; Data "(Cisco Controller) >?";
     Data "Press Enter to continue"] "" =
  (Ret (page_and_prompt +:+ "ssid lab" +:+ "Press Enter to continue"
        +:+ "(Cisco Controller) >?"),
   [Send newline; Send " "; Sleep 1000; Send newline; Send " "]).
Proof. reflexivity. Qed.

(** ** The controller login *)



(** X8: once the user name prompt is found the buffer is emptied, so
    whatever the same chunk held after it is lost to the wait for the
    password prompt: if nothing more arrives, the login sends the user
    name and then polls for ever, also when the chunk already showed the
    password prompt. *)
Theorem wlc_login_drops_rest_of_chunk self chunk n :
  Text.contains "User:" chunk = true →
  wlc_shell_login self (Data chunk :: repeat NoData n) =
  (Diverge,
   Send (username (creds (config self)) +:+ newline) :: repeat (Sleep 200) n).
Proof.
  intros Hc. unfold wlc_shell_login. cbn [await_prompt].
  change ("" +:+ chunk) with chunk. rewrite Hc.
  rewrite bind_emit. simpl. by rewrite await_prompt_silent.
Qed.

Lemma wlc_login_drops_rest_of_chunk_witness :
  Text.contains "User:" "User: Password:" = true
  ∧ Text.contains "Password:" "User: Password:" = true
  ∧ wlc_shell_login (init (lab [])) (Data "User: Password:" :: repeat NoData 2)
    = (Diverge, [Send ("admin" +:+ newline); Sleep 200; Sleep 200]).
Proof.
  split; [reflexivity |]. split; [reflexivity |].
  apply (wlc_login_drops_rest_of_chunk (init (lab [])) "User: Password:" 2).
  reflexivity.
Defined.

(** ** Command lists *)

(** X9: a command list is abandoned at the first command whose
    execution or output raises: the commands after it are never sent,
    what the earlier commands printed is dropped, and the result is the
    empty string. *)
Theorem execute_commands_stops_at_failure c pre cmd post texts e :
  all_captured c pre = Some texts →
  captured c (cmd +:+ newline) = Fails e →
  execute_commands c (pre ++ cmd :: post) =
  (Ret "", exec_then_pause pre ++ [Exec (cmd +:+ newline)]).
Proof.
  unfold execute_commands. generalize EmptyString at 1. intros output.
  revert texts output. induction pre as [|p pre IH]; intros texts output.
  - intros _ Hfail. change ([] ++ cmd :: post) with (cmd :: post).
    rewrite execute_loop_cons. unfold captured in Hfail.
    destruct (exec_command c (cmd +:+ newline)) as [stdout|e']; [|done].
    rewrite bind_lift_ok, read_all_stream, Hfail. done.
  - intros Hall Hfail. change ((p :: pre) ++ cmd :: post)
      with (p :: (pre ++ cmd :: post)).
    rewrite execute_loop_cons. simpl in Hall. unfold captured in Hall.
    destruct (exec_command c (p +:+ newline)) as [stdout|e']; [|done].
    rewrite bind_lift_ok, read_all_stream.
    destruct (stream_text stdout) as [t|e']; [|done].
    destruct (all_captured c pre) as [ts|] eqn:Hpre; [|done].
    specialize (IH ts (output +:+ t) eq_refl Hfail).
    destruct (pre ++ cmd :: post) as [|x xs] eqn:Hrest;
      [by destruct pre |].
    simpl. by rewrite IH.
Qed.

Lemma execute_commands_stops_at_failure_witness :
  all_captured flaky_client ["terminal pager 0"] = Some ["pager off"]
  ∧ captured flaky_client ("show running-config" +:+ newline)
    = Fails SSHException
  ∧ execute_commands flaky_client
      (["terminal pager 0"] ++ "show running-config" :: ["show version"])
    = (Ret "",
       [Exec ("terminal pager 0" +:+ newline); Sleep 1000;
        Exec ("show running-config" +:+ newline)]).
Proof.
  split; [reflexivity |]. split; [reflexivity |].
  apply (execute_commands_stops_at_failure flaky_client ["terminal pager 0"]
           "show running-config" ["show version"] ["pager off"] SSHException);
    reflexivity.
Defined.

(** ** Persistence *)

(** X10: for a capture that is not empty, [save_config] creates the
    directory of the file and writes the sanitized text (the raw text
    when it is given no commands, or an empty command) to the [.cfg]
    file.  An error while opening or writing the file is turned into the
    result [False]; an error while creating the directory is not caught
    and leaves [save_config] as an exception, before any file is
    opened. *)
Theorem save_config_outcomes w text h n g commands :
  Text.nonempty text = true →
  let path := Path.join "backup" [g; file_name n h (now w) ".cfg"] in
  let body := saved_body text commands in
  match os_makedirs w (Path.dirname path) with
  | Ok _ =>
      match open_write w path body with
      | Ok _ =>
          save_config w (Some text) h n g commands =
          (Ret true, [Makedirs (Path.dirname path); WriteFile path body])
      | Fails _ =>
          save_config w (Some text) h n g commands =
          (Ret false, [Makedirs (Path.dirname path); WriteFailed path])
      end
  | Fails e =>
      save_config w (Some text) h n g commands =
      (Raise e, [Makedirs (Path.dirname path)])
  end.
Proof.
  intros Htext. unfold save_config, saved_body, saved_text, makedirs, write_file.
  rewrite Htext. simpl.
  destruct (os_makedirs w _) as [[]|e]; [|done]. simpl.
  by destruct (open_write w _ _) as [[]|e].
Qed.

Lemma save_config_outcomes_witness :
  Text.nonempty "hostname R1" = true
  ∧ save_config healthy (Some "hostname R1") "10.0.0.1" "r1" "core" None
    = (Ret true,
       [Makedirs "backup/core";
        WriteFile "backup/core/r1_10_0_0_1_20240101_0000.cfg" "hostname R1"])
  ∧ save_config full_disk (Some "hostname R1") "10.0.0.1" "r1" "core" None
    = (Ret false,
       [Makedirs "backup/core";
        WriteFailed "backup/core/r1_10_0_0_1_20240101_0000.cfg"])
  ∧ save_config readonly_disk (Some "hostname R1") "10.0.0.1" "r1" "core" None
    = (Raise OSError, [Makedirs "backup/core"]).
Proof.
  split_and!; [reflexivity | | |].
  - apply (save_config_outcomes healthy "hostname R1" "10.0.0.1" "r1" "core"
             None eq_refl).
  - apply (save_config_outcomes full_disk "hostname R1" "10.0.0.1" "r1" "core"
             None eq_refl).
  - apply (save_config_outcomes readonly_disk "hostname R1" "10.0.0.1" "r1"
             "core" None eq_refl).
Defined.

Lemma prefix_empty s : String.prefix "" s = true.
Proof. by destruct s. Qed.

Lemma prefix_slash_cons c r x :
  String.prefix "/" (String c r +:+ x) = String.prefix "/" (String c r).
Proof. simpl. destruct (ascii_dec "/" c); by rewrite ?prefix_empty. Qed.

Lemma prefix_slash_join2 p b :
  String.prefix "/" (Path.join2 p b) = String.prefix "/" b || String.prefix "/" p.
Proof.
  unfold Path.join2. destruct (String.prefix "/" b) eqn:Hb; cbv iota.
  - by rewrite Hb.
  - cbn [orb]. destruct p as [|c r].
    + change (String.prefix "/" b = String.prefix "/" ""). by rewrite Hb.
    + destruct (negb _ || _); apply prefix_slash_cons.
Qed.

Lemma prefix_slash_file_name n h date ext :
  String.prefix "/" (file_name n h date ext) = String.prefix "/" n.
Proof.
  unfold file_name. destruct n as [|c r]; [done |]. apply prefix_slash_cons.
Qed.

Lemma prefix_backup_join2 p b :
  String.prefix "backup" p = true → String.prefix "/" b = false →
  String.prefix "backup" (Path.join2 p b) = true.
Proof.
  intros [x ->]%prefix_true Hb. unfold Path.join2. rewrite Hb.
  apply prefix_true.
  destruct (negb _ || _); rewrite append_assoc; eauto.
Qed.

(** X11: the file of a backup lies under [backup/] exactly when neither
    the group label nor the device name starts with a slash; when one of
    them does, [os.path.join] drops what precedes it and the file is
    written at an absolute path. *)
Theorem backup_path_absolute g n h date ext :
  let path := Path.join "backup" [g; file_name n h date ext] in
  String.prefix "/" path = String.prefix "/" g || String.prefix "/" n
  ∧ (String.prefix "/" g || String.prefix "/" n = false →
     String.prefix "backup" path = true).
Proof.
  simpl. split.
  - rewrite !prefix_slash_join2, prefix_slash_file_name.
    change (String.prefix "/" "backup") with false.
    rewrite orb_false_r. apply orb_comm.
  - intros [Hg Hn]%orb_false_iff.
    apply prefix_backup_join2; [| by rewrite prefix_slash_file_name].
    by apply prefix_backup_join2.
Qed.

(** ** One transport per task *)

(** X12: the task of a device of the API platform never opens a
    terminal session, and the task of any other device never issues an
    HTTP request. *)
Theorem task_uses_one_transport self w d :
  if bool_decide (platform d = "fortinet")
  then Forall (λ ev, ssh_event ev = false) (backup_device self w d).2
  else Forall (λ ev, is_http ev = false) (backup_device self w d).2.
Proof.
  unfold backup_device. case_bool_decide as Hp.
  - assert (∀ path content,
              Forall (λ ev, ssh_event ev = false) (write_file w path content).2)
      as Hwrite by (intros; by apply write_file_trace).
    unfold fortinet_api_backup, makedirs. trace.
  - assert (∀ c p, Forall (λ ev, is_http ev = false) (get_backup self c p).2)
      as Hget.
    { intros c p. eapply Forall_impl; [apply get_backup_trace |].
      by intros []. }
    assert (∀ path content,
              Forall (λ ev, is_http ev = false) (write_file w path content).2)
      as Hwrite by (intros; by apply write_file_trace).
    unfold connect_device, save_config, commands_for, makedirs. trace.
Qed.

(** ** The HTTP path: keys and requests *)

(** X13: when neither the device nor the credentials give a key that is
    not empty, the task of an API device fails at once: no request is
    sent and nothing is written. *)
Theorem api_without_key_sends_nothing self w d :
  platform d = "fortinet" →
  truthy (effective_key self d) = false →
  backup_device self w d = (Ret false, []).
Proof.
  intros Hp Hkey. rewrite (backup_device_fortinet _ _ _ Hp).
  unfold fortinet_api_backup, effective_key in *.
  destruct (or_else _ _) as [key|]; [|done].
  simpl in Hkey. by rewrite Hkey.
Qed.

Lemma api_without_key_sends_nothing_witness :
  platform fw_without_key = "fortinet"
  ∧ truthy (effective_key (init (lab [fw_without_key])) fw_without_key) = false
  ∧ backup_device (init (lab [fw_without_key])) healthy fw_without_key
    = (Ret false, []).
Proof.
  split; [reflexivity |]. split; [reflexivity |].
  apply (api_without_key_sends_nothing (init (lab [fw_without_key])) healthy
           fw_without_key); reflexivity.
Defined.

Lemma fortinet_trace_shape self w d key :
  effective_key self d = Some key →
  Text.nonempty key = true →
  ∃ rest,
    (fortinet_api_backup self w d).2 = HttpGet (api_url d) (bearer key) :: rest
    ∧ Forall (λ ev, touches_files ev = true) rest.
Proof.
  intros Hkey Hne. unfold fortinet_api_backup, effective_key, api_url, bearer in *.
  rewrite Hkey, Hne. simpl.
  destruct (requests_get w _ _) as [resp|e]; simpl; [| by exists []].
  destruct (Nat.eqb (status_code resp) 200); simpl; [| by exists []].
  unfold makedirs, write_file.
  destruct (os_makedirs w _) as [[]|e]; simpl;
    [| eexists; split; [done | by repeat constructor]].
  destruct (open_write w _ _) as [[]|e]; simpl;
    eexists; split; try done; by repeat constructor.
Qed.

(** X14: every request the task of an API device sends goes to the
    backup URL of that device (its own port, or 443) and carries as
    bearer token the key of the device when that is not empty, and the
    key of the credentials otherwise. *)
Theorem api_request_shape self w d url authorization :
  platform d = "fortinet" →
  HttpGet url authorization ∈ (backup_device self w d).2 →
  ∃ key,
    Text.nonempty key = true
    ∧ url = api_url d
    ∧ authorization = bearer key
    ∧ (api_key d = Some key
       ∨ (truthy (api_key d) = false
          ∧ default_api_key (creds (config self)) = Some key)).
Proof.
  intros Hp. rewrite (backup_device_fortinet _ _ _ Hp).
  destruct (effective_key self d) as [key|] eqn:Hkey.
  2: { unfold fortinet_api_backup, effective_key in *. rewrite Hkey.
       by intros ?%elem_of_nil. }
  destruct (Text.nonempty key) eqn:Hne.
  2: { unfold fortinet_api_backup, effective_key in *. rewrite Hkey, Hne.
       by intros ?%elem_of_nil. }
  destruct (fortinet_trace_shape self w d key Hkey Hne) as (rest & -> & Hrest).
  rewrite Forall_forall in Hrest.
  intros [Heq | Hin%Hrest]%elem_of_cons; [| done].
  injection Heq as -> ->. exists key. split_and!; [done.. |].
  unfold effective_key, or_else in Hkey.
  destruct (api_key d) as [k|]; [| by right].
  destruct (Text.nonempty k) eqn:Hk; [left; congruence | right].
  simpl. by rewrite Hk.
Qed.

Lemma api_request_shape_witness :
  platform fw = "fortinet"
  ∧ HttpGet "https://10.0.0.2:443/api/v2/monitor/system/config/backup?scope=global"
      "Bearer k3y" ∈ (backup_device (init (lab [fw])) forbidden fw).2
  ∧ ∃ key,
      Text.nonempty key = true
      ∧ "https://10.0.0.2:443/api/v2/monitor/system/config/backup?scope=global"
        = api_url fw
      ∧ "Bearer k3y" = bearer key
      ∧ (api_key fw = Some key
         ∨ (truthy (api_key fw) = false
            ∧ default_api_key (creds (config (init (lab [fw])))) = Some key)).
Proof.
  assert (HttpGet
            "https://10.0.0.2:443/api/v2/monitor/system/config/backup?scope=global"
            "Bearer k3y" ∈ (backup_device (init (lab [fw])) forbidden fw).2)
    as Hin.
  { apply list_elem_of_lookup. exists 0. reflexivity. }
  split; [reflexivity |]. split; [exact Hin |].
  apply (api_request_shape (init (lab [fw])) forbidden fw _ _ eq_refl Hin).
Defined.

(** ** The connection is closed first *)

(** X15: when the connection was opened and the capture has ended, with
    a text, with nothing or with an error, the client is closed right
    after it and before the file system is touched: whatever the task
    does after [client.close] is work on files. *)
Theorem connection_closed_before_saving self w d c :
  platform d ≠ "fortinet" →
  ssh_connect w (hostip d) = Ok c →
  (get_backup self c (platform d)).1 ≠ Diverge →
  ∃ rest,
    (backup_device self w d).2 =
    Connect (hostip d) :: (get_backup self c (platform d)).2
    ++ CloseClient :: rest
    ∧ Forall (λ ev, touches_files ev = true) rest.
Proof.
  intros Hp Hc Hend. unfold backup_device.
  rewrite bool_decide_eq_false_2 by done.
  rewrite (connect_device_ok _ _ _ Hc). simpl.
  pose proof (try_except_total (get_backup_body self c (platform d)) None)
    as Hnoraise.
  fold (get_backup self c (platform d)) in Hnoraise.
  destruct (get_backup self c (platform d)) as [[cfg|e|] t]; simpl in *;
    [| by destruct (Hnoraise e) | done].
  destruct (truthy cfg) eqn:Htruthy; simpl; [| by exists []].
  unfold commands_for.
  destruct (backup_commands self !! platform d) as [commands|]; simpl;
    [| by exists []].
  destruct cfg as [text|]; [| done]. simpl in Htruthy.
  unfold save_config, makedirs, write_file. rewrite Htruthy. simpl.
  destruct (os_makedirs w _) as [[]|e]; simpl;
    [| eexists; split; [done | by repeat constructor]].
  destruct (open_write w _ _) as [[]|e]; simpl;
    eexists; split; try done; by repeat constructor.
Qed.

Lemma connection_closed_before_saving_witness :
  platform r1 ≠ "fortinet"
  ∧ ssh_connect readonly_disk (hostip r1) = Ok ios_client
  ∧ (get_backup (init (lab [r1])) ios_client (platform r1)).1 ≠ Diverge
  ∧ ∃ rest,
      (backup_device (init (lab [r1])) readonly_disk r1).2 =
      Connect (hostip r1)
      :: (get_backup (init (lab [r1])) ios_client (platform r1)).2
      ++ CloseClient :: rest
      ∧ Forall (λ ev, touches_files ev = true) rest.
Proof.
  assert (platform r1 ≠ "fortinet") as Hp by discriminate.
  assert ((get_backup (init (lab [r1])) ios_client (platform r1)).1 ≠ Diverge)
    as Hend by discriminate.
  split_and!; [exact Hp | reflexivity | exact Hend |].
  apply (connection_closed_before_saving (init (lab [r1])) readonly_disk r1
           ios_client Hp eq_refl Hend).
Defined.

(** ** How the batch ends *)

Lemma run_backup_unfold self w :
  run_backup self w =
  match aggregate (task_results self w (devices (config self))) with
  | Ret success =>
      (Ret tt,
       task_traces self w (devices (config self))
       ++ [Summary success (length (devices (config self)))])
  | Raise e => (Raise e, task_traces self w (devices (config self)))
  | Diverge => (Diverge, task_traces self w (devices (config self)))
  end.
Proof.
  unfold run_backup, task_results, task_traces.
  by rewrite !map_map, length_map.
Qed.

Lemma task_traces_no_summary self w ds :
  Forall (λ ev, is_summary ev = false) (task_traces self w ds).
Proof.
  unfold task_traces. induction ds as [|d ds IH]; simpl; [constructor |].
  apply Forall_app. split; [apply backup_device_no_summary | done].
Qed.

Lemma unfinished_blocks results :
  Diverge ∈ results → aggregate results = Diverge.
Proof.
  intros Hin. unfold aggregate, executor_exit.
  assert (forallb finished results = false) as ->; [| done].
  induction results as [|r rs IH]; [by apply elem_of_nil in Hin |].
  apply elem_of_cons in Hin as [<- | Hin]; simpl; [done |].
  rewrite (IH Hin). apply andb_false_r.
Qed.

(** X16: a task that never ends keeps the whole batch from ending:
    whatever the other tasks do, [run_backup] does not return and the
    summary is never logged. *)
Theorem stuck_task_blocks_summary self w d :
  d ∈ devices (config self) →
  (backup_device self w d).1 = Diverge →
  (run_backup self w).1 = Diverge
  ∧ Forall (λ ev, is_summary ev = false) (run_backup self w).2.
Proof.
  intros Hin Hd. rewrite run_backup_unfold.
  rewrite unfinished_blocks.
  - split; [done | apply task_traces_no_summary].
  - unfold task_results. rewrite <- Hd.
    apply list_elem_of_In.
    apply (in_map (λ x, (backup_device self w x).1)).
    by apply list_elem_of_In.
Qed.

Lemma stuck_task_blocks_summary_witness :
  sw_silent ∈ devices (config (init (lab [r1; sw_silent; fw])))
  ∧ (backup_device (init (lab [r1; sw_silent; fw])) mute sw_silent).1 = Diverge
  ∧ (run_backup (init (lab [r1; sw_silent; fw])) mute).1 = Diverge.
Proof.
  assert (sw_silent ∈ devices (config (init (lab [r1; sw_silent; fw]))))
    as Hin.
  { apply list_elem_of_lookup. exists 1. reflexivity. }
  split; [exact Hin |]. split; [reflexivity |].
  apply (stuck_task_blocks_summary (init (lab [r1; sw_silent; fw])) mute
           sw_silent Hin eq_refl).
Defined.

Lemma sum_results_finished results :
  forallb finished results = true →
  sum_results results =
  match first_raise results with
  | Some e => Raise e
  | None => Ret (length (List.filter succeeded results))
  end.
Proof.
  induction results as [|[b|e|] results IH]; simpl; [done | | done..].
  intros Hfin. rewrite (IH Hfin).
  destruct (first_raise results); [done |]. by destruct b.
Qed.

(** X17: when every task ends and some task raised, [run_backup] ends
    with the error of the first such task in inventory order, after all
    tasks have run, and logs no summary. *)
Theorem first_task_error_ends_batch self w e :
  forallb finished (task_results self w (devices (config self))) = true →
  first_raise (task_results self w (devices (config self))) = Some e →
  run_backup self w = (Raise e, task_traces self w (devices (config self)))
  ∧ Forall (λ ev, is_summary ev = false) (run_backup self w).2.
Proof.
  intros Hfin Hfirst.
  assert (run_backup self w
          = (Raise e, task_traces self w (devices (config self)))) as Hrun.
  { rewrite run_backup_unfold. unfold aggregate, executor_exit.
    by rewrite Hfin, (sum_results_finished _ Hfin), Hfirst. }
  rewrite Hrun. split; [done | apply task_traces_no_summary].
Qed.

Lemma first_task_error_ends_batch_witness :
  forallb finished
    (task_results (init (lab [fw; r1])) readonly_disk
       (devices (config (init (lab [fw; r1]))))) = true
  ∧ first_raise
      (task_results (init (lab [fw; r1])) readonly_disk
         (devices (config (init (lab [fw; r1]))))) = Some OSError
  ∧ (run_backup (init (lab [fw; r1])) readonly_disk).1 = Raise OSError.
Proof.
  split; [reflexivity |]. split; [reflexivity |].
  destruct (first_task_error_ends_batch (init (lab [fw; r1])) readonly_disk
              OSError eq_refl eq_refl) as [Hrun _].
  rewrite Hrun. reflexivity.
Defined.

Lemma returned_finished (results : list (res bool)) :
  forallb returned results = true → forallb finished results = true.
Proof.
  induction results as [|[b|e|] results IH]; simpl; auto; done.
Qed.

Lemma returned_no_raise (results : list (res bool)) :
  forallb returned results = true → first_raise results = None.
Proof.
  induction results as [|[b|e|] results IH]; simpl; auto; done.
Qed.

Lemma aggregate_returned results :
  forallb returned results = true →
  aggregate results = Ret (length (List.filter succeeded results)).
Proof.
  intros Hret. unfold aggregate, executor_exit.
  rewrite (returned_finished _ Hret).
  by rewrite (sum_results_finished _ (returned_finished _ Hret)),
    (returned_no_raise _ Hret).
Qed.

(** X18: when every task returns, with success or failure, [run_backup]
    returns too: it logs the summary once, after everything the tasks
    did, with the number of successful tasks and the number of
    devices. *)
Theorem all_tasks_return_gives_summary self w :
  forallb returned (task_results self w (devices (config self))) = true →
  run_backup self w =
  (Ret tt,
   task_traces self w (devices (config self))
   ++ [Summary
         (length (List.filter succeeded
                    (task_results self w (devices (config self)))))
         (length (devices (config self)))]).
Proof.
  intros Hret. by rewrite run_backup_unfold, (aggregate_returned _ Hret).
Qed.

Lemma all_tasks_return_gives_summary_witness :
  forallb returned
    (task_results (init (lab [fw; unknown_box])) forbidden
       (devices (config (init (lab [fw; unknown_box]))))) = true
  ∧ run_backup (init (lab [fw; unknown_box])) forbidden =
    (Ret tt,
     [HttpGet (api_url fw) (bearer "k3y"); Connect "10.0.0.9"; CloseClient;
      Summary 0 2]).
Proof.
  split; [reflexivity |].
  rewrite (all_tasks_return_gives_summary (init (lab [fw; unknown_box]))
             forbidden eq_refl).
  reflexivity.
Defined.

Lemma permutation_returned (rs rs' : list (res bool)) :
  Permutation rs rs' →
  forallb returned rs = forallb returned rs'
  ∧ length (List.filter succeeded rs) = length (List.filter succeeded rs').
Proof.
  induction 1 as [| r rs rs' _ [IH1 IH2] | r r' rs | rs rs2 rs3 _ [IH1 IH2] _ [IH3 IH4]];
    simpl.
  - done.
  - rewrite IH1. split; [done |]. destruct (succeeded r); simpl; lia.
  - split; [by rewrite !andb_assoc, (andb_comm (returned r')) |].
    by destruct (succeeded r), (succeeded r').
  - split; congruence.
Qed.

Lemma aggregate_ret_returned results n :
  aggregate results = Ret n → forallb returned results = true.
Proof.
  intros Hsum%aggregate_ret. revert n Hsum.
  induction results as [|[b|e|] results IH]; intros n; simpl; [done | | done..].
  destruct (sum_results results) as [m| |]; [| done..]. intros _. eauto.
Qed.

(** X19: the order of the inventory does not matter to the count: if
    the batch over one order of the devices ends with [n] successes, it
    ends with [n] successes over any other order. *)
Theorem success_count_ignores_order self w ds ds' n :
  Permutation ds ds' →
  aggregate (task_results self w ds) = Ret n →
  aggregate (task_results self w ds') = Ret n.
Proof.
  intros Hperm Hagg. unfold task_results in *.
  pose proof (Permutation_map (λ d, (backup_device self w d).1) Hperm) as Hp.
  destruct (permutation_returned _ _ Hp) as [Hret Hcount].
  pose proof (aggregate_ret_returned _ _ Hagg) as Hall.
  rewrite (aggregate_returned _ Hall) in Hagg. injection Hagg as <-.
  rewrite Hret in Hall. by rewrite (aggregate_returned _ Hall), Hcount.
Qed.

Lemma success_count_ignores_order_witness :
  Permutation [r1; unknown_box; fw] [fw; r1; unknown_box]
  ∧ aggregate (task_results (init (lab [])) healthy [r1; unknown_box; fw])
    = Ret 2
  ∧ aggregate (task_results (init (lab [])) healthy [fw; r1; unknown_box])
    = Ret 2.
Proof.
  assert (Permutation [r1; unknown_box; fw] [fw; r1; unknown_box]) as Hperm.
  { apply Permutation_sym, (Permutation_cons_append [r1; unknown_box] fw). }
  split; [exact Hperm |]. split; [reflexivity |].
  apply (success_count_ignores_order (init (lab [])) healthy
           [r1; unknown_box; fw] [fw; r1; unknown_box] 2 Hperm).
  reflexivity.
Defined.

(** ** Commands the capture spells out itself *)

(** X20: for the [h3c], [h3c_core] and [cisco_wlc] platforms the
    registry only has to have an entry: the command it lists is never
    sent, the capture sends the commands written in [get_backup], and two
    registries that both list the platform give the same capture. *)
Theorem scripted_platform_ignores_registry self self' c platform :
  platform ∈ scripted_platforms →
  config self = config self' →
  is_Some (backup_commands self !! platform) →
  is_Some (backup_commands self' !! platform) →
  get_backup self c platform = get_backup self' c platform.
Proof.
  intros Hin Hcfg [c1 H1] [c2 H2].
  unfold get_backup, get_backup_body, wlc_shell_login.
  rewrite H1, H2, Hcfg.
  unfold scripted_platforms in Hin. rewrite !elem_of_cons in Hin.
  repeat case_bool_decide; try done; exfalso;
    match goal with
    | H : _ ∉ _ |- _ =>
        rewrite !not_elem_of_cons in H; destruct H as (? & ? & _)
    end;
    destruct Hin as [? | [? | [? | ?%elem_of_nil]]]; congruence.
Qed.

Lemma scripted_platform_ignores_registry_witness :
  "h3c" ∈ scripted_platforms
  ∧ config (init (lab [])) = config other_registry
  ∧ backup_commands other_registry !! "h3c"
    = Some (Single "display saved-configuration")
  ∧ get_backup (init (lab [])) silent_client "h3c"
    = get_backup other_registry silent_client "h3c".
Proof.
  assert ("h3c" ∈ scripted_platforms) as Hin.
  { apply list_elem_of_lookup. exists 0. reflexivity. }
  split_and!; [exact Hin | reflexivity | reflexivity |].
  apply (scripted_platform_ignores_registry (init (lab [])) other_registry
           silent_client "h3c" Hin eq_refl).
  - eexists. reflexivity.
  - eexists. reflexivity.
Defined.

(** ** What the login sends *)



(** ** The [cisco_asa] capture as a whole *)

Lemma asa_send_keystrokes cmds :
  asa_send cmds =
  (Ret tt, flat_map (λ cmd, [Send (cmd +:+ newline); Sleep 2000]) cmds).
Proof.
  induction cmds as [|cmd cmds IH]; [done |].
  cbn [asa_send]. by rewrite !bind_emit, IH.
Qed.

(** X22: the [cisco_asa] capture sends every item of the command with a
    pause after each, waits once more, and then returns what the shell
    holds up to its first poll without data; what comes later is not
    part of the result.  With no data at that moment the result is the
    empty text. *)
Theorem asa_capture self c command chunks rest :
  backup_commands self !! "cisco_asa" = Some command →
  invoke_shell c = Ok (map Data chunks ++ NoData :: rest) →
  get_backup self c "cisco_asa" =
  (Ret (Some (Text.concat_all chunks)),
   InvokeShell :: Sleep 1000 :: asa_keystrokes command
   ++ [Sleep 2000; CloseShell]).
Proof.
  intros Hcmd Hshell. unfold get_backup, get_backup_body, asa_keystrokes.
  rewrite Hcmd, Hshell.
  rewrite (bool_decide_eq_false_2 ("cisco_asa" ∈ ["h3c"; "h3c_core"]))
    by (rewrite !not_elem_of_cons; split_and!;
        [discriminate.. | apply not_elem_of_nil]).
  rewrite (bool_decide_eq_false_2 ("cisco_asa" = "cisco_wlc")) by discriminate.
  rewrite (bool_decide_eq_true_2 ("cisco_asa" = "cisco_asa")) by done.
  rewrite bind_emit, bind_lift_ok, bind_emit, asa_send_keystrokes.
  rewrite asa_read_chunks. by simpl.
Qed.

Lemma asa_capture_witness :
  backup_commands (init (lab [])) !! "cisco_asa"
  = Some (Several ["terminal pager 0"; "show running-config"])
  ∧ invoke_shell slow_asa_client
    = Ok (map Data ["hostname asa"] ++ NoData :: [Data "interface"])
  ∧ get_backup (init (lab [])) slow_asa_client "cisco_asa" =
    (Ret (Some "hostname asa"),
     [InvokeShell; Sleep 1000;
      Send ("terminal pager 0" +:+ newline); Sleep 2000;
      Send ("show running-config" +:+ newline); Sleep 2000;
      Sleep 2000; CloseShell]).
Proof.
  split; [reflexivity |]. split; [reflexivity |].
  apply (asa_capture (init (lab [])) slow_asa_client
           (Several ["terminal pager 0"; "show running-config"])
           ["hostname asa"] [Data "interface"]); reflexivity.
Defined.

(** ** A terminal backup from end to end *)

(** X23: when the connection opens, the capture returns a text that is
    not empty, and the directory and the file can be written, the task of
    a terminal device succeeds: it closes the client and then writes to
    the [.cfg] file of the device the capture sanitized with the
    platform's commands from the registry. *)
Theorem terminal_backup_succeeds self w d c text commands :
  platform d ≠ "fortinet" →
  ssh_connect w (hostip d) = Ok c →
  (get_backup self c (platform d)).1 = Ret (Some text) →
  Text.nonempty text = true →
  backup_commands self !! platform d = Some commands →
  os_makedirs w (Path.dirname (backup_file w d ".cfg")) = Ok tt →
  open_write w (backup_file w d ".cfg") (saved_text text commands) = Ok tt →
  backup_device self w d =
  (Ret true,
   Connect (hostip d) :: (get_backup self c (platform d)).2
   ++ [CloseClient; Makedirs (Path.dirname (backup_file w d ".cfg"));
       WriteFile (backup_file w d ".cfg") (saved_text text commands)]).
Proof.
  intros Hp Hc Hget Htext Hcmd Hdir Hfile. unfold backup_device.
  rewrite bool_decide_eq_false_2 by done.
  rewrite (connect_device_ok _ _ _ Hc). simpl.
  destruct (get_backup self c (platform d)) as [r t]. simpl in Hget. subst r.
  destruct text as [|ch s]; [discriminate |]. simpl.
  unfold commands_for. rewrite Hcmd. simpl.
  unfold makedirs, write_file, backup_file, saved_text in *.
  simpl in Hdir, Hfile |- *. rewrite Hdir. simpl. by rewrite Hfile.
Qed.

Lemma terminal_backup_succeeds_witness :
  platform r1 ≠ "fortinet"
  ∧ backup_device (init (lab [r1])) healthy r1 =
    (Ret true,
     [Connect "10.0.0.1"; Exec "show running-config"; CloseClient;
      Makedirs "backup/core";
      WriteFile "backup/core/r1_10_0_0_1_20240101_0000.cfg"
        ("hostname R1" +:+ newline)]).
Proof.
  assert (platform r1 ≠ "fortinet") as Hp by discriminate.
  split; [exact Hp |].
  apply (terminal_backup_succeeds (init (lab [r1])) healthy r1 ios_client
           ("show running-config" +:+ newline +:+ "hostname R1" +:+ newline)
           (Single "show running-config") Hp); reflexivity.
Defined.

(** ** The output of a command list is stripped *)

Lemma lstrip_rstrip_fixed s :
  Text.lstrip s = s → Text.lstrip (Text.rstrip s) = Text.rstrip s.
Proof.
  destruct s as [|c s]; [done |]. simpl.
  destruct (Text.isspace c) eqn:Hc.
  - intros Heq. exfalso.
    pose proof (lstrip_suffix s) as [p Hp]. rewrite Heq in Hp.
    apply (f_equal String.length) in Hp.
    assert (∀ a b, String.length (a +:+ b)
                   = String.length a + String.length b) as Hlen.
    { intros a b. induction a as [|x a IH]; simpl; [done | by rewrite IH]. }
    rewrite Hlen in Hp. simpl in Hp. lia.
  - intros _. destruct (Text.rstrip s); simpl; by rewrite Hc.
Qed.

Lemma rstrip_idempotent s : Text.rstrip (Text.rstrip s) = Text.rstrip s.
Proof.
  induction s as [|c s IH]; [done |]. simpl.
  destruct (Text.rstrip s) as [|c' s'] eqn:Hs.
  - destruct (Text.isspace c) eqn:Hc; [done |]. simpl. by rewrite Hc.
  - simpl in *. rewrite IH. done.
Qed.

Lemma strip_fixed s :
  Text.lstrip (Text.strip s) = Text.strip s
  ∧ Text.rstrip (Text.strip s) = Text.strip s.
Proof.
  unfold Text.strip. split.
  - apply lstrip_rstrip_fixed, lstrip_idempotent.
  - apply rstrip_idempotent.
Qed.

Lemma execute_loop_stripped c cmds output out :
  (execute_loop c cmds output).1 = Ret out → ∃ s, out = Text.strip s.
Proof.
  revert output. induction cmds as [|cmd rest IH]; intros output.
  - intros [= <-]. eauto.
  - rewrite execute_loop_cons.
    destruct (exec_command c (cmd +:+ newline)) as [stdout|e].
    + rewrite bind_lift_ok, read_all_stream.
      destruct (stream_text stdout) as [t|e]; simpl.
      * specialize (IH (output +:+ t)).
        destruct (execute_loop c rest (output +:+ t)) as [r tr] eqn:Hl.
        destruct rest as [|cmd' rest]; simpl; rewrite ?Hl; simpl; auto.
        intros [= <-]. eauto.
      * intros [= <-]. by exists "".
    + simpl. intros [= <-]. by exists "".
Qed.

(** X24: whatever [execute_commands] returns has no white space at
    either end: it is the stripped output of the whole list, or the empty
    text. *)
Theorem execute_commands_output_stripped c cmds out :
  (execute_commands c cmds).1 = Ret out →
  Text.lstrip out = out ∧ Text.rstrip out = out.
Proof.
  intros [s ->]%execute_loop_stripped. apply strip_fixed.
Qed.

Lemma execute_commands_output_stripped_witness :
  (execute_commands ios_client ["show running-config"]).1
  = Ret ("show running-config" +:+ newline +:+ "hostname R1")
  ∧ Text.rstrip ("show running-config" +:+ newline +:+ "hostname R1")
    = "show running-config" +:+ newline +:+ "hostname R1".
Proof.
  split; [reflexivity |].
  apply (execute_commands_output_stripped ios_client ["show running-config"]
           ("show running-config" +:+ newline +:+ "hostname R1")).
  reflexivity.
Defined.
